(** * Noteable: a line-oriented key=value store kept in a [.noteable] file

    A shallow embedding of [src/noteable.js].  JavaScript strings are modelled
    by [string], one [ascii] per code unit, which covers texts whose code units
    lie in U+0000..U+00FF.  The file system is a finite map from resolved
    paths to file contents, with an environment that tells which directories
    exist; methods are computations in a small state and exception monad
    over the object and the disk.  The external [auto-parse]
    package and [path.resolve] are parameters.  The methods [typeof] and
    [isEmpty], which only wrap [get], are left out. *)

From Stdlib Require Import ZArith Ascii String List Bool Lia.
From stdpp Require Import base option list strings gmap.
Import ListNotations.

Local Open Scope Z_scope.
Local Open Scope nat_scope.

(** ** JavaScript string and array primitives used by the class *)

Module JS.

(** Characters of interest. *)
Definition EQ : ascii := "="%char.
Definition LF : ascii := "010"%char.

(** [s.length] *)
Definition length (s : string) : nat := String.length s.

(** [s.includes(c)] for a one-character needle. *)
Fixpoint includes (c : ascii) (s : string) : bool :=
  match s with
  | EmptyString => false
  | String a s' => if Ascii.eqb a c then true else includes c s'
  end.

(** [s.startsWith(p)] *)
Definition startsWith (p s : string) : bool := String.prefix p s.

(** [s.endsWith(p)]: the last [p.length] code units of [s] are [p]. *)
Definition endsWith (p s : string) : bool :=
  let n := String.length s in
  let m := String.length p in
  if m <=? n then String.eqb (String.substring (n - m) m s) p else false.

(** [s.toLowerCase()] on the letters A..Z; no other code unit below U+0100
    lowers to one of the letters of the word [default]. *)
Definition lower_char (c : ascii) : ascii :=
  let n := nat_of_ascii c in
  if (65 <=? n) && (n <=? 90) then ascii_of_nat (n + 32) else c.

Fixpoint toLowerCase (s : string) : string :=
  match s with
  | EmptyString => EmptyString
  | String c s' => String (lower_char c) (toLowerCase s')
  end.

(** [s.split(sep)] for a one-character separator: never empty, the
    empty string splits into one empty segment. *)
Fixpoint split (sep : ascii) (s : string) : list string :=
  match s with
  | EmptyString => [EmptyString]
  | String c s' =>
      if Ascii.eqb c sep then EmptyString :: split sep s'
      else match split sep s' with
           | [] => [String c EmptyString]
           | seg :: segs => String c seg :: segs
           end
  end.

(** [a.join(sep)] *)
Fixpoint join (sep : string) (a : list string) : string :=
  match a with
  | [] => EmptyString
  | [x] => x
  | x :: xs => x +:+ sep +:+ join sep xs
  end.

(** [a[i]], [undefined] when out of range. *)
Definition at_index {A} (a : list A) (i : nat) : option A := nth_error a i.

(** [a.find(p)]: the first element satisfying [p], else [undefined]. *)
Definition find {A} (p : A -> bool) (a : list A) : option A := List.find p a.

(** [a.findIndex(p)]: [None] stands for [-1]. *)
Fixpoint findIndex {A} (p : A -> bool) (a : list A) : option nat :=
  match a with
  | [] => None
  | x :: xs => if p x then Some 0 else option_map S (findIndex p xs)
  end.

(** Truthiness of a value that is a string or [undefined]: only the
    empty string and [undefined] are falsy. *)
Definition truthy (v : option string) : bool :=
  match v with
  | None => false
  | Some s => negb (String.eqb s EmptyString)
  end.

(** [x === key] where [x] is a string or [undefined]. *)
Definition strict_eq (x : option string) (key : string) : bool :=
  match x with
  | None => false
  | Some s => String.eqb s key
  end.

(** *** [parseInt(s)] with no radix argument

    [None] stands for [NaN].  The mathematical integer is kept exact: the
    class only compares the result with [1], and rounding to a double does
    not change that comparison. *)

Definition is_white (c : ascii) : bool :=
  let n := nat_of_ascii c in
  (n =? 9) || (n =? 10) || (n =? 11) || (n =? 12) || (n =? 13)
  || (n =? 32) || (n =? 160).

Fixpoint trimStart (s : string) : string :=
  match s with
  | EmptyString => EmptyString
  | String c s' => if is_white c then trimStart s' else s
  end.

Definition digit_value (c : ascii) : option Z :=
  let n := nat_of_ascii c in
  if (48 <=? n) && (n <=? 57) then Some (Z.of_nat (n - 48))
  else if (97 <=? n) && (n <=? 122) then Some (Z.of_nat (n - 87))
  else if (65 <=? n) && (n <=? 90) then Some (Z.of_nat (n - 55))
  else None.

(** The longest prefix of radix-[R] digits, read as a number. *)
Fixpoint digits (R : Z) (s : string) (acc : Z) (seen : bool) : option Z :=
  let stop := if seen then Some acc else None in
  match s with
  | EmptyString => stop
  | String c s' =>
      match digit_value c with
      | Some d => if (d <? R)%Z then digits R s' (acc * R + d)%Z true else stop
      | None => stop
      end
  end.

Definition parseInt (input : string) : option Z :=
  let S0 := trimStart input in
  let '(sign, S1) :=
    match S0 with
    | String "-"%char r => ((-1)%Z, r)
    | String "+"%char r => (1%Z, r)
    | _ => (1%Z, S0)
    end in
  let '(R, S2) :=
    match S1 with
    | String "0"%char (String x r) =>
        if Ascii.eqb x "x"%char || Ascii.eqb x "X"%char then (16%Z, r) else (10%Z, S1)
    | _ => (10%Z, S1)
    end in
  option_map (Z.mul sign) (digits R S2 0%Z false).

(** [n > 1] for a number that may be [NaN]. *)
Definition gt_one (n : option Z) : bool :=
  match n with
  | None => false
  | Some z => (1 <? z)%Z
  end.

End JS.

(** ** Errors, completions and the state *)

(** The errors the class throws, one constructor per message. *)
Inductive error : Type :=
| NotNoteableFile (path : string)      (* File path ... is not a .noteable file *)
| LineNotValid (line : nat)            (* Line ... is not valid *)
| KeyDoesntExist (key : string)        (* Key ... doesn't exist *)
| NoNoteFound (key : string)           (* No note found for key: ... *)
| KeyHasDuplicateValue (key : string)  (* Key ... has duplicate value *)
| KeyAlreadyExists (key : string)      (* Key ... already exists *)
| ENOENT (path : string).              (* raised by fs on a missing file *)

Inductive completion (A : Type) : Type :=
| Return (a : A)
| Throw (e : error).
Arguments Return {A} a.
Arguments Throw {A} e.

(** The argument of the constructor; an absent field is [None]. *)
Module Settings.
Record settings : Type := mk {
  filePath : option string;
  autoParse : option bool;
  throwError : option bool
}.
End Settings.

(** The fields of an instance. *)
Record Noteable : Type := mkNoteable {
  filePath : string;
  notes : string;
  autoParse : bool;
  throwError : bool;
  noteArray : list string
}.

(** What [get] and [getAll] hand out: [undefined], a raw string, or whatever
    the auto-parse package makes of its argument. *)
Inductive jsval (value : Type) : Type :=
| Undefined
| Str (s : string)
| Parsed (v : value).
Arguments Undefined {value}.
Arguments Str {value} s.
Arguments Parsed {value} v.

(** An object together with the disk it works on. *)
Record state : Type := mkState {
  this : Noteable;
  fs : gmap string string
}.

Definition M (A : Type) : Type := state -> completion A * state.

Definition ret {A} (a : A) : M A := fun st => (Return a, st).

Definition throw {A} (e : error) : M A := fun st => (Throw e, st).

Definition bind {A B} (m : M A) (k : A -> M B) : M B :=
  fun st =>
    match m st with
    | (Return a, st') => k a st'
    | (Throw e, st') => (Throw e, st')
    end.

Notation "'let!' x ':=' m 'in' k" := (bind m (fun x => k))
  (at level 10, x name, m at level 100, k at level 200).
Notation "m ';;' k" := (bind m (fun _ => k))
  (at level 100, k at level 200, right associativity).

Definition get_this : M Noteable := fun st => (Return (this st), st).

(** [data.push(line)] on the array that [this.noteArray] refers to. *)
Definition push (line : string) : M unit :=
  fun st =>
    let o := this st in
    (Return tt,
     mkState (mkNoteable (filePath o) (notes o) (autoParse o) (throwError o)
                (noteArray o ++ [line]))
             (fs st)).

(** How [isEmpty] ends: with a boolean, with an error of the class, or with
    a [TypeError] of the language. *)
Inductive outcome (A : Type) : Type :=
| Done (a : A)
| Raised (e : error)
| TypeError.

Arguments Done {A} a.
Arguments Raised {A} e.
Arguments TypeError {A}.

(** The environment in which no directory is missing. *)
Definition every_directory (p : string) : bool := true.

Section Class.

(** [path.resolve] for the working directory of the process; the disk is
    keyed by resolved paths, and [fs] resolves the path it is given. *)
Variable resolve : string -> string.

(** The [auto-parse] package: from a string or [undefined] to a value. *)
Context {value : Type}.
Variable auto_parse : option string -> value.

Definition existsSync (d : gmap string string) (p : string) : bool :=
  match d !! resolve p with
  | Some _ => true
  | None => false
  end.

Definition write_disk (d : gmap string string) (p data : string)
  : gmap string string :=
  <[resolve p := data]> d.

Definition read_disk (d : gmap string string) (p : string) : option string :=
  d !! resolve p.

(** The text the constructor reads at a path: that of the file, or the
    empty text of the file it creates when there is none. *)
Definition source (d : gmap string string) (p : string) : string :=
  default "" (read_disk d p).

(** The disk once a missing file has been created empty. *)
Definition created (d : gmap string string) (p : string) : gmap string string :=
  match read_disk d p with
  | Some _ => d
  | None => write_disk d p ""
  end.

(** [fs.writeFileSync(p, data, 'utf8')] on a disk.  The directories are
    those of the environment: [dir_exists p] tells whether the directory of
    the resolved path [p] is there, and the class never makes or removes
    one.  The file is written when its directory exists, as that of a file
    already on the disk does; otherwise nothing is written, and [None]
    stands for the [ENOENT] error of the file system. *)
Definition fs_write (dir_exists : string -> bool) (d : gmap string string)
  (p data : string) : option (gmap string string) :=
  if dir_exists (resolve p) || existsSync d p
  then Some (write_disk d p data) else None.

Definition writeFileSync (dir_exists : string -> bool) (p data : string)
  : M unit :=
  fun st =>
    match fs_write dir_exists (fs st) p data with
    | Some d => (Return tt, mkState (this st) d)
    | None => (Throw (ENOENT (resolve p)), st)
    end.

(** [note.split('=')[0] === key] *)
Definition key_is (key note : string) : bool :=
  JS.strict_eq (JS.at_index (JS.split JS.EQ note) 0) key.

(** [note.split('=')[1]] *)
Definition second (note : string) : option string :=
  JS.at_index (JS.split JS.EQ note) 1.

(** The predicate of [findIndex] in [check]. *)
Definition invalid_line (line : string) : bool :=
  negb (JS.startsWith "#" line) && negb (JS.includes JS.EQ line)
    && negb (JS.length line <=? 1)
  || (2 <? List.length (JS.split JS.EQ line)).

Definition check (dir_exists : string -> bool) : M unit :=
  let! o := get_this in
  match JS.findIndex invalid_line (noteArray o) with
  | Some error => throw (LineNotValid (error + 1))
  | None =>
      let data := List.filter (fun line => 1 <? JS.length line) (noteArray o) in
      writeFileSync dir_exists (filePath o) (JS.join "
" data)
  end.

(** The first statement of the constructor: the path the instance uses. *)
Definition effective_path (settings : Settings.settings) : string :=
  match Settings.filePath settings with
  | None => "./note.noteable"
  | Some p =>
      if negb (JS.truthy (Some p)) || String.eqb (JS.toLowerCase p) "default"
      then "./note.noteable" else p
  end.

(** The constructor in an environment.  Creating the missing file is the
    first thing that can fail: in a missing directory [fs.writeFileSync]
    throws, before the extension is looked at. *)
Definition constructor_in (dir_exists : string -> bool)
  (settings : Settings.settings) (d : gmap string string)
  : completion Noteable * gmap string string :=
  let filePath := effective_path settings in
  match (if negb (existsSync d (resolve filePath))
         then fs_write dir_exists d (resolve filePath) "" else Some d) with
  | None => (Throw (ENOENT (resolve (resolve filePath))), d)
  | Some d =>
      if negb (JS.endsWith ".noteable" filePath)
      then (Throw (NotNoteableFile filePath), d)
      else
        match read_disk d filePath with
        | None => (Throw (ENOENT filePath), d)
        | Some notes =>
            let o :=
              mkNoteable filePath notes
                (default true (Settings.autoParse settings))
                (default false (Settings.throwError settings))
                (JS.split JS.LF notes) in
            match check dir_exists (mkState o d) with
            | (Return _, st) => (Return (this st), fs st)
            | (Throw e, st) => (Throw e, fs st)
            end
        end
  end.

(** The constructor where no directory is missing. *)
Definition constructor (settings : Settings.settings) (d : gmap string string)
  : completion Noteable * gmap string string :=
  constructor_in every_directory settings d.

Definition keyCheck (key : string) : M unit :=
  let! o := get_this in
  if negb (JS.truthy (JS.find (key_is key) (noteArray o)))
  then if throwError o then throw (KeyDoesntExist key) else ret tt
  else ret tt.

(** The value of a note read back: parsed or raw. *)
Definition read_value (parse : bool) (raw : option string) : jsval value :=
  if parse then Parsed (auto_parse raw)
  else match raw with
       | Some s => Str s
       | None => Undefined
       end.

Definition get (key : string) : M (jsval value) :=
  keyCheck key ;;
  let! o := get_this in
  let value := JS.find (key_is key) (noteArray o) in
  if negb (JS.truthy value) && throwError o then throw (NoNoteFound key)
  else if negb (JS.truthy value) then ret Undefined
  else
    if JS.gt_one (from_option JS.parseInt None
                    (JS.find (key_is key) (noteArray o)))
    then if throwError o then throw (KeyHasDuplicateValue key)
         else ret Undefined
    else ret (read_value (autoParse o) (from_option second None value)).

Definition has (key : string) : M bool :=
  let! o := get_this in
  ret (if JS.truthy (JS.find (key_is key) (noteArray o)) then true else false).

(** The writing methods in an environment. *)
Definition set_in (dir_exists : string -> bool) (key value : string) : M unit :=
  let! present := has key in
  let! o := get_this in
  if present
  then if throwError o then throw (KeyAlreadyExists key) else ret tt
  else
    push (key +:+ "=" +:+ value) ;;
    let! o := get_this in
    writeFileSync dir_exists (filePath o) (JS.join "
" (noteArray o)).

Definition remove_in (dir_exists : string -> bool) (key : string) : M unit :=
  keyCheck key ;;
  let! o := get_this in
  let data :=
    List.filter (fun note => negb (key_is key note))
      (JS.split JS.LF (notes o)) in
  writeFileSync dir_exists (filePath o) (JS.join "
" data).

Definition change_in (dir_exists : string -> bool) (key value : string)
  : M unit :=
  keyCheck key ;;
  let! o := get_this in
  let data :=
    List.map (fun note =>
                if key_is key note then key +:+ "=" +:+ value else note)
      (noteArray o) in
  writeFileSync dir_exists (filePath o) (JS.join "
" data).

Definition removeAll_in (dir_exists : string -> bool) : M unit :=
  let! o := get_this in
  writeFileSync dir_exists (filePath o) "".

(** The writing methods where no directory is missing, which is where an
    instance is once its constructor has returned and nothing else touches
    its directory: they agree with the ones above on every state whose file
    is on the disk, whatever the environment. *)
Definition set (key value : string) : M unit :=
  set_in every_directory key value.

Definition remove (key : string) : M unit := remove_in every_directory key.

Definition change (key value : string) : M unit :=
  change_in every_directory key value.

(** One single-entry mapping per line, as a pair. *)
Definition getAll : M (list (option string * jsval value)) :=
  let! o := get_this in
  ret (List.map (fun note =>
                   (JS.at_index (JS.split JS.EQ note) 0,
                    read_value (autoParse o) (second note)))
         (noteArray o)).

Definition removeAll : M unit := removeAll_in every_directory.

(** A caller's use of an instance: method calls one after the other, a
    thrown error caught and the next call made on the state it left. *)
Inductive call : Type :=
| CallGet (key : string)
| CallSet (key value : string)
| CallRemove (key : string)
| CallChange (key value : string)
| CallHas (key : string)
| CallGetAll
| CallRemoveAll.

Definition step (c : call) (st : state) : state :=
  match c with
  | CallGet key => snd (get key st)
  | CallSet key v => snd (set key v st)
  | CallRemove key => snd (remove key st)
  | CallChange key v => snd (change key v st)
  | CallHas key => snd (has key st)
  | CallGetAll => snd (getAll st)
  | CallRemoveAll => snd (removeAll st)
  end.

Definition steps (cs : list call) (st : state) : state :=
  fold_left (fun st c => step c st) cs st.

(** *** [typeof] and [isEmpty]

    Both look at the value [get] hands out.  For a value made by the
    auto-parse package the three observations they make are parameters:
    its [typeof] tag, whether it is [undefined], and whether its [length]
    is [0], where reading [length] off [null] or [undefined] is a
    [TypeError]. *)
Variable type_tag : value -> string.
Variable is_undefined : value -> bool.
Variable length_is_zero : value -> option bool.

(** The [typeof] operator. *)
Definition js_typeof (x : jsval value) : string :=
  match x with
  | Undefined => "undefined"
  | Str _ => "string"
  | Parsed v => type_tag v
  end.

(** [x === undefined] *)
Definition strictly_undefined (x : jsval value) : bool :=
  match x with
  | Undefined => true
  | Str _ => false
  | Parsed v => is_undefined v
  end.

(** [x.length === 0]; [None] is the [TypeError] of a missing receiver. *)
Definition length_zero (x : jsval value) : option bool :=
  match x with
  | Undefined => None
  | Str s => Some (JS.length s =? 0)
  | Parsed v => length_is_zero v
  end.

Definition typeof (key : string) : M string :=
  let! x := get key in
  ret (js_typeof x).

Definition isEmpty (key : string) (st : state) : outcome bool * state :=
  match get key st with
  | (Throw e, st1) => (Raised e, st1)
  | (Return x, st1) =>
      if strictly_undefined x then (Done true, st1)
      else
        match get key st1 with
        | (Throw e, st2) => (Raised e, st2)
        | (Return y, st2) =>
            match length_zero y with
            | Some b => (Done b, st2)
            | None => (TypeError, st2)
            end
        end
  end.

End Class.

(** ** Vocabulary of the specification *)

(** Number of occurrences of a character. *)
Fixpoint count_char (c : ascii) (s : string) : nat :=
  match s with
  | EmptyString => 0
  | String a s' => (if Ascii.eqb a c then 1 else 0) + count_char c s'
  end.

(** The portion of [s] before the first [c]; all of [s] when it has none. *)
Fixpoint before (c : ascii) (s : string) : string :=
  match s with
  | EmptyString => EmptyString
  | String a s' => if Ascii.eqb a c then EmptyString else String a (before c s')
  end.

(** The text after the first [c], if there is a [c]. *)
Fixpoint after (c : ascii) (s : string) : option string :=
  match s with
  | EmptyString => None
  | String a s' => if Ascii.eqb a c then Some s' else after c s'
  end.

(** The text of a line after its first [=] and up to the next [=], or to
    the end when there is no other; none when the line has no [=]. *)
Definition value_text (line : string) : option string :=
  option_map (before JS.EQ) (after JS.EQ line).

(** A blank line has length at most one. *)
Definition blank (line : string) : bool := JS.length line <=? 1.

(** The grammar of a line as the specification words it: a comment, a
    blank line, or a pair with exactly one [=]. *)
Definition grammar (line : string) : bool :=
  JS.startsWith "#" line || blank line || (count_char JS.EQ line =? 1).

(** The lines the validation lets through: as [grammar], and a comment
    has at most one [=] too. *)
Definition accepted (line : string) : bool :=
  (JS.startsWith "#" line && (count_char JS.EQ line <=? 1))
  || blank line || (count_char JS.EQ line =? 1).

(** No line of the store has [key] before its first [=]. *)
Definition absent (key : string) (o : Noteable) : Prop :=
  Forall (fun note => before JS.EQ note <> key) (noteArray o).

(** A key or value of the file format: no [=] and no newline in it. *)
Definition valid_text (s : string) : Prop :=
  JS.includes JS.EQ s = false /\ JS.includes JS.LF s = false.

(** Every line of the store has at most one [=]. *)
Definition single_eq (o : Noteable) : Prop :=
  Forall (fun line => count_char JS.EQ line <= 1) (noteArray o).

(** [o'] is [o] with lines appended to its array, all else the same. *)
Definition grows (o o' : Noteable) : Prop :=
  filePath o' = filePath o /\ notes o' = notes o
  /\ autoParse o' = autoParse o /\ throwError o' = throwError o
  /\ exists extra, noteArray o' = noteArray o ++ extra.

(** The line [find] settles on for a key. *)
Definition found (key : string) (o : Noteable) : option string :=
  JS.find (key_is key) (noteArray o).

(** The object after [data.push(line)]. *)
Definition pushed (o : Noteable) (line : string) : Noteable :=
  mkNoteable (filePath o) (notes o) (autoParse o) (throwError o)
    (noteArray o ++ [line]).

(** A stand-in for the auto-parse package where a concrete run needs one:
    it hands its argument back. *)
Definition sample_parse (raw : option string) : option string := raw.

(** Stand-ins for what [typeof] and [isEmpty] observe of such a value. *)
Definition sample_tag (v : option string) : string :=
  match v with
  | Some _ => "string"
  | None => "undefined"
  end.

Definition sample_undefined (v : option string) : bool :=
  match v with
  | Some _ => false
  | None => true
  end.

Definition sample_length_zero (v : option string) : option bool :=
  option_map (fun s => JS.length s =? 0) v.

(** A store with [throwError] set, holding the one line [a=1]. *)
Definition strict_store : Noteable :=
  mkNoteable "n.noteable" "a=1" true true ["a=1"].

(** Settings asking for the default file, in upper case. *)
Definition default_settings : Settings.settings :=
  Settings.mk (Some "DEFAULT") None None.


(** Settings naming a file in the directory [nodir]. *)
Definition nodir_settings : Settings.settings :=
  Settings.mk (Some "nodir/x.txt") None None.

(** An environment in which the directory [nodir] is the one missing. *)
Definition without_nodir (p : string) : bool :=
  negb (JS.startsWith "nodir/" p).

(** A working directory in which every path is already resolved. *)
Definition resolved (p : string) : string := p.

(** ** Sample files and stores for concrete runs *)

(** Settings naming the file [n.noteable], the flags left to their defaults. *)
Definition n_settings : Settings.settings :=
  Settings.mk (Some "n.noteable") None None.

(** The same with [autoParse] switched off. *)
Definition n_settings_raw : Settings.settings :=
  Settings.mk (Some "n.noteable") (Some false) None.

(** Settings naming a file without the extension. *)
Definition txt_settings : Settings.settings :=
  Settings.mk (Some "notes.txt") None None.

(** A disk holding [n.noteable] with the given text. *)
Definition disk_with (text : string) : gmap string string :=
  {[ "n.noteable" := text ]}.

(** The instance the constructor builds on [n.noteable] holding [text]. *)
Definition store_of (text : string) (parse : bool) : Noteable :=
  mkNoteable "n.noteable" text parse false (JS.split JS.LF text).

(** What a computation returns or throws, the final state dropped. *)
Definition result {A} (r : completion A * state) : completion A := fst r.

(** ** The steps of [parseInt], one function each *)

(** The sign and the text after it. *)
Definition strip_sign (s : string) : Z * string :=
  match s with
  | String c r =>
      if Ascii.eqb c "-" then ((-1)%Z, r)
      else if Ascii.eqb c "+" then (1%Z, r)
      else (1%Z, s)
  | EmptyString => (1%Z, s)
  end.

(** The radix and the text after a [0x] or [0X] prefix. *)
Definition strip_prefix (s : string) : Z * string :=
  match s with
  | String a (String x r) =>
      if Ascii.eqb a "0" && (Ascii.eqb x "x" || Ascii.eqb x "X")
      then (16%Z, r) else (10%Z, s)
  | _ => (10%Z, s)
  end.

(** [parseInt] of a text with its leading white space already dropped. *)
Definition parse_trimmed (s : string) : option Z :=
  let '(sign, s1) := strip_sign s in
  let '(R, s2) := strip_prefix s1 in
  option_map (Z.mul sign) (JS.digits R s2 0%Z false).

(** The lines of the file that are not blank. *)
Definition compacted (lines : list string) : list string :=
  List.filter (fun line => 1 <? JS.length line) lines.

(** * Properties *)

Example split_kv : JS.split JS.EQ "years=2021" = ["years"; "2021"].
Proof. reflexivity. Qed.

Example split_empty : JS.split JS.LF "" = [""].
Proof. reflexivity. Qed.

Example split_lines : JS.split JS.LF "a=1

b=2" = ["a=1"; ""; "b=2"].
Proof. reflexivity. Qed.

Example split_two_eq : JS.split JS.EQ "a=1=2" = ["a"; "1"; "2"].
Proof. reflexivity. Qed.

Example parseInt_line : JS.parseInt "2021=x" = Some 2021%Z.
Proof. reflexivity. Qed.

Example parseInt_hex : JS.parseInt "  -0x1f=x" = Some (-31)%Z.
Proof. reflexivity. Qed.

Example parseInt_nan : JS.parseInt "years=2021" = None.
Proof. reflexivity. Qed.

Example endsWith_ext : JS.endsWith ".noteable" "./note.noteable" = true.
Proof. reflexivity. Qed.

Example lower_default : JS.toLowerCase "DeFault" = "default".
Proof. reflexivity. Qed.

(** ** Strings: [split], [join] and the parts of a line *)

Lemma split_unfold (c : ascii) (s : string) :
  JS.split c s = before c s :: from_option (JS.split c) [] (after c s).
Proof.
  induction s as [|a s IH]; simpl; [reflexivity|].
  destruct (Ascii.eqb a c); [reflexivity|].
  rewrite IH. reflexivity.
Qed.

Lemma split_length (c : ascii) (s : string) :
  List.length (JS.split c s) = S (count_char c s).
Proof.
  induction s as [|a s IH]; simpl; [reflexivity|].
  destruct (Ascii.eqb a c); simpl; [now rewrite IH|].
  rewrite split_unfold in *. simpl in *. exact IH.
Qed.

Lemma includes_count (c : ascii) (s : string) :
  JS.includes c s = (0 <? count_char c s).
Proof.
  induction s as [|a s IH]; simpl; [reflexivity|].
  destruct (Ascii.eqb a c); simpl; [reflexivity | exact IH].
Qed.

Lemma includes_false_count (c : ascii) (s : string) :
  JS.includes c s = false <-> count_char c s = 0.
Proof.
  rewrite includes_count. destruct (count_char c s); simpl; split; intros; try lia; try discriminate; reflexivity.
Qed.

Lemma after_none (c : ascii) (s : string) :
  after c s = None <-> count_char c s = 0.
Proof.
  induction s as [|a s IH]; simpl; [tauto|].
  destruct (Ascii.eqb a c); simpl; [split; [discriminate | lia] | exact IH].
Qed.

Lemma after_some_count (c : ascii) (s r : string) :
  after c s = Some r -> count_char c s = S (count_char c r).
Proof.
  induction s as [|a s IH]; simpl; [discriminate|].
  destruct (Ascii.eqb a c); simpl; [intros [= ->]; reflexivity | exact IH].
Qed.

Lemma before_no_sep (c : ascii) (s : string) :
  count_char c s = 0 -> before c s = s.
Proof.
  induction s as [|a s IH]; simpl; [reflexivity|].
  destruct (Ascii.eqb a c); simpl; [discriminate|].
  intros H. now rewrite IH.
Qed.

Lemma count_append (c : ascii) (s t : string) :
  count_char c (s +:+ t) = count_char c s + count_char c t.
Proof.
  induction s as [|a s IH]; [reflexivity|].
  change (String a s +:+ t) with (String a (s +:+ t)). simpl.
  rewrite IH. lia.
Qed.

Lemma before_append (c : ascii) (k v : string) :
  count_char c k = 0 -> before c (k +:+ String c v) = k.
Proof.
  induction k as [|a k IH].
  - intros _. change (EmptyString +:+ String c v) with (String c v).
    simpl. now rewrite Ascii.eqb_refl.
  - change (String a k +:+ String c v) with (String a (k +:+ String c v)).
    simpl. destruct (Ascii.eqb a c); simpl; [discriminate|].
    intros H. now rewrite IH.
Qed.

Lemma after_append (c : ascii) (k v : string) :
  count_char c k = 0 -> after c (k +:+ String c v) = Some v.
Proof.
  induction k as [|a k IH].
  - intros _. change (EmptyString +:+ String c v) with (String c v).
    simpl. now rewrite Ascii.eqb_refl.
  - change (String a k +:+ String c v) with (String a (k +:+ String c v)).
    simpl. destruct (Ascii.eqb a c); simpl; [discriminate | exact IH].
Qed.

Lemma split_no_sep (c : ascii) (s : string) :
  count_char c s = 0 -> JS.split c s = [s].
Proof.
  intros H. rewrite split_unfold, (before_no_sep _ _ H).
  apply after_none in H. now rewrite H.
Qed.

Lemma split_append (c : ascii) (k v : string) :
  count_char c k = 0 -> JS.split c (k +:+ String c v) = k :: JS.split c v.
Proof.
  intros H. rewrite split_unfold, (before_append _ _ _ H), (after_append _ _ _ H).
  reflexivity.
Qed.

Lemma split_segments (c : ascii) (s : string) :
  Forall (fun x => count_char c x = 0) (JS.split c s).
Proof.
  induction s as [|a s IH]; simpl; [repeat constructor|].
  destruct (Ascii.eqb a c) eqn:E; [constructor; [reflexivity | exact IH]|].
  destruct (JS.split c s) as [|seg segs]; [repeat constructor; simpl; now rewrite E|].
  inversion IH; subst. constructor; [simpl; now rewrite E | assumption].
Qed.

Lemma split_join (c : ascii) (l : list string) :
  l <> [] -> Forall (fun x => count_char c x = 0) l ->
  JS.split c (JS.join (String c EmptyString) l) = l.
Proof.
  induction l as [|x l IH]; [congruence|].
  intros _ H. inversion H as [|? ? Hx Hl]; subst.
  destruct l as [|y l].
  - simpl. now apply split_no_sep.
  - change (JS.join (String c EmptyString) (x :: y :: l))
      with (x +:+ String c (JS.join (String c EmptyString) (y :: l))).
    rewrite split_append by assumption.
    rewrite IH; [reflexivity | discriminate | assumption].
Qed.

Lemma key_is_before (key note : string) :
  key_is key note = String.eqb (before JS.EQ note) key.
Proof. unfold key_is. rewrite split_unfold. reflexivity. Qed.

Lemma key_is_true (key note : string) :
  key_is key note = true <-> before JS.EQ note = key.
Proof. rewrite key_is_before. apply String.eqb_eq. Qed.

Lemma second_between (note : string) :
  second note = option_map (before JS.EQ) (after JS.EQ note).
Proof.
  unfold second. rewrite split_unfold. simpl.
  destruct (after JS.EQ note) as [r|]; simpl; [|reflexivity].
  rewrite split_unfold. reflexivity.
Qed.

Lemma second_after (note : string) :
  count_char JS.EQ note <= 1 -> second note = after JS.EQ note.
Proof.
  intros H. rewrite second_between.
  destruct (after JS.EQ note) as [r|] eqn:E; simpl; [|reflexivity].
  apply after_some_count in E. rewrite before_no_sep; [reflexivity | lia].
Qed.

Lemma eq_line (key value : string) :
  key +:+ "=" +:+ value = key +:+ String JS.EQ value.
Proof. reflexivity. Qed.

Lemma key_is_new_line (key value : string) :
  count_char JS.EQ key = 0 -> key_is key (key +:+ "=" +:+ value) = true.
Proof.
  intros H. rewrite key_is_before, eq_line, before_append by assumption.
  apply String.eqb_refl.
Qed.

Lemma new_line_not_empty (key value : string) : key +:+ "=" +:+ value <> "".
Proof.
  rewrite eq_line. intros H.
  apply (f_equal (count_char JS.EQ)) in H. rewrite count_append in H.
  simpl in H. lia.
Qed.

(** ** Arrays: [find] and [findIndex] *)

Lemma find_absent (key : string) (o : Noteable) :
  absent key o -> JS.find (key_is key) (noteArray o) = None.
Proof.
  unfold absent, JS.find. induction 1 as [|x l Hx _ IH]; simpl; [reflexivity|].
  destruct (key_is key x) eqn:E; [|exact IH].
  apply key_is_true in E. contradiction.
Qed.

Lemma find_app_none {A} (p : A -> bool) (l l' : list A) :
  JS.find p l = None -> JS.find p (l ++ l') = JS.find p l'.
Proof.
  unfold JS.find. induction l as [|x l IH]; simpl; [reflexivity|].
  destruct (p x); [discriminate | exact IH].
Qed.

Lemma find_first {A} (p : A -> bool) (l : list A) (x : A) :
  JS.find p l = Some x <->
  exists l1 l2, l = l1 ++ x :: l2 /\ p x = true /\ Forall (fun y => p y = false) l1.
Proof.
  unfold JS.find. induction l as [|y l IH]; simpl.
  - split; [discriminate|]. intros (l1 & l2 & H & _). destruct l1; discriminate.
  - destruct (p y) eqn:E.
    + split.
      * intros [= ->]. exists [], l. repeat split; [assumption | constructor].
      * intros (l1 & l2 & H & Hx & Hl1). destruct l1 as [|z l1].
        -- simpl in H. congruence.
        -- inversion H; subst. inversion Hl1; subst. congruence.
    + rewrite IH. split.
      * intros (l1 & l2 & -> & Hx & Hl1). exists (y :: l1), l2.
        repeat split; [assumption | constructor; assumption].
      * intros (l1 & l2 & H & Hx & Hl1). destruct l1 as [|z l1].
        -- simpl in H. inversion H; subst. congruence.
        -- inversion H; subst. inversion Hl1; subst. exists l1, l2. tauto.
Qed.

Lemma findIndex_none {A} (p : A -> bool) (l : list A) :
  JS.findIndex p l = None <-> Forall (fun x => p x = false) l.
Proof.
  induction l as [|x l IH]; simpl.
  - split; [constructor | reflexivity].
  - destruct (p x) eqn:E.
    + split; [discriminate|]. inversion 1; congruence.
    + destruct (JS.findIndex p l); simpl.
      * split; [discriminate|]. inversion 1; subst.
        apply IH in H3. discriminate.
      * split; [|reflexivity]. intros _. constructor; [assumption | now apply IH].
Qed.

Lemma findIndex_some {A} (p : A -> bool) (l : list A) (i : nat) :
  JS.findIndex p l = Some i <->
  exists l1 x l2, l = l1 ++ x :: l2 /\ List.length l1 = i /\ p x = true
                  /\ Forall (fun y => p y = false) l1.
Proof.
  revert i. induction l as [|y l IH]; intros i; simpl.
  - split; [discriminate|]. intros (l1 & x & l2 & H & _). destruct l1; discriminate.
  - destruct (p y) eqn:E.
    + split.
      * intros [= <-]. exists [], y, l. repeat split; [assumption | constructor].
      * intros (l1 & x & l2 & H & Hi & Hx & Hl1). destruct l1 as [|z l1].
        -- simpl in Hi. congruence.
        -- inversion H; subst. inversion Hl1; subst. congruence.
    + destruct (JS.findIndex p l) as [j|] eqn:Ej; simpl.
      * split.
        -- intros [= <-]. destruct (proj1 (IH j) eq_refl) as (l1 & x & l2 & -> & Hj & Hx & Hl1).
           exists (y :: l1), x, l2. simpl. repeat split; [lia | assumption | constructor; assumption].
        -- intros (l1 & x & l2 & H & Hi & Hx & Hl1). destruct l1 as [|z l1].
           ++ inversion H; subst. congruence.
           ++ inversion H; subst. inversion Hl1; subst. simpl.
              assert (Hj : Some j = Some (List.length l1)).
              { apply IH. exists l1, x, l2. tauto. }
              congruence.
      * split; [discriminate|].
        intros (l1 & x & l2 & H & Hi & Hx & Hl1). destruct l1 as [|z l1].
        -- inversion H; subst. congruence.
        -- inversion H; subst. inversion Hl1; subst.
           assert (Hj : None = Some (List.length l1)).
           { apply IH. exists l1, x, l2. tauto. }
           discriminate.
Qed.

(** ** The methods, one equation each *)

Section Methods.

Variable resolve : string -> string.
Context {value : Type}.
Variable auto_parse : option string -> value.

Lemma keyCheck_eq (key : string) (st : state) :
  keyCheck key st =
  (if negb (JS.truthy (found key (this st))) && throwError (this st)
   then Throw (KeyDoesntExist key) else Return tt, st).
Proof.
  unfold keyCheck, found, bind, get_this, ret, throw.
  destruct (JS.truthy _), (throwError (this st)); reflexivity.
Qed.

Lemma has_eq (key : string) (st : state) :
  has key st = (Return (JS.truthy (found key (this st))), st).
Proof.
  unfold has, found, bind, get_this, ret.
  destruct (JS.truthy _); reflexivity.
Qed.

Lemma get_eq (key : string) (st : state) :
  get auto_parse key st =
  (match found key (this st) with
   | Some line =>
       if JS.truthy (Some line) then
         if JS.gt_one (JS.parseInt line)
         then if throwError (this st) then Throw (KeyHasDuplicateValue key)
              else Return Undefined
         else Return (read_value auto_parse (autoParse (this st)) (second line))
       else if throwError (this st) then Throw (KeyDoesntExist key)
            else Return Undefined
   | None => if throwError (this st) then Throw (KeyDoesntExist key)
             else Return Undefined
   end, st).
Proof.
  unfold get, bind. rewrite keyCheck_eq. unfold found, get_this, ret, throw.
  destruct (JS.find (key_is key) (noteArray (this st))) as [line|]; simpl.
  - destruct (String.eqb line ""), (throwError (this st)); simpl; try reflexivity.
    + destruct (JS.gt_one (JS.parseInt line)); reflexivity.
    + destruct (JS.gt_one (JS.parseInt line)); reflexivity.
  - destruct (throwError (this st)); reflexivity.
Qed.

Lemma set_eq (key v : string) (st : state) :
  set resolve key v st =
  if JS.truthy (found key (this st))
  then (if throwError (this st) then Throw (KeyAlreadyExists key) else Return tt, st)
  else
    let o := pushed (this st) (key +:+ "=" +:+ v) in
    (Return tt,
     mkState o (write_disk resolve (fs st) (filePath o) (JS.join "
" (noteArray o)))).
Proof.
  unfold set, set_in, bind. rewrite has_eq.
  unfold get_this, ret, throw, push, writeFileSync.
  destruct (JS.truthy _); simpl; [destruct (throwError (this st)); reflexivity|].
  reflexivity.
Qed.

Lemma remove_eq (key : string) (st : state) :
  remove resolve key st =
  if negb (JS.truthy (found key (this st))) && throwError (this st)
  then (Throw (KeyDoesntExist key), st)
  else
    (Return tt,
     mkState (this st)
       (write_disk resolve (fs st) (filePath (this st))
          (JS.join "
" (List.filter (fun note => negb (key_is key note))
     (JS.split JS.LF (notes (this st))))))).
Proof.
  unfold remove, remove_in, bind. rewrite keyCheck_eq.
  unfold get_this, writeFileSync.
  destruct (negb _ && _); reflexivity.
Qed.

Lemma change_eq (key v : string) (st : state) :
  change resolve key v st =
  if negb (JS.truthy (found key (this st))) && throwError (this st)
  then (Throw (KeyDoesntExist key), st)
  else
    (Return tt,
     mkState (this st)
       (write_disk resolve (fs st) (filePath (this st))
          (JS.join "
" (List.map (fun note => if key_is key note then key +:+ "=" +:+ v else note)
     (noteArray (this st)))))).
Proof.
  unfold change, change_in, bind. rewrite keyCheck_eq.
  unfold get_this, writeFileSync.
  destruct (negb _ && _); reflexivity.
Qed.

Lemma getAll_eq (st : state) :
  getAll auto_parse st =
  (Return (List.map (fun note =>
                       (JS.at_index (JS.split JS.EQ note) 0,
                        read_value auto_parse (autoParse (this st)) (second note)))
             (noteArray (this st))), st).
Proof. reflexivity. Qed.

Lemma removeAll_eq (st : state) :
  removeAll resolve st =
  (Return tt, mkState (this st) (write_disk resolve (fs st) (filePath (this st)) "")).
Proof. reflexivity. Qed.

Lemma check_eq (st : state) :
  check resolve every_directory st =
  match JS.findIndex invalid_line (noteArray (this st)) with
  | Some i => (Throw (LineNotValid (i + 1)), st)
  | None =>
      (Return tt,
       mkState (this st)
         (write_disk resolve (fs st) (filePath (this st))
            (JS.join "
" (List.filter (fun line => 1 <? JS.length line) (noteArray (this st))))))
  end.
Proof.
  unfold check, bind, get_this.
  destruct (JS.findIndex invalid_line (noteArray (this st))); reflexivity.
Qed.

Lemma parseInt_gt_one_not_empty (line : string) :
  JS.gt_one (JS.parseInt line) = true -> line <> "".
Proof. intros H ->. discriminate H. Qed.

Lemma truthy_some (line : string) :
  line <> "" -> JS.truthy (Some line) = true.
Proof.
  intros H. simpl. destruct (String.eqb_spec line ""); [contradiction | reflexivity].
Qed.

(** C7, amended: when the line found for a key parses, from its start, as
    an integer greater than 1, [get] does not hand out the stored value: it
    throws the duplicate-value error when [throwError] is set and returns
    [undefined] otherwise.  When it does not parse so, [get] returns the
    text of the line after its first [=] and up to the next [=]: the whole
    text after the first [=] when there is no second one, [undefined] when
    there is no [=]; as a raw string when [autoParse] is off, through
    auto-parse when it is on. *)
Theorem get_duplicate_guard (key line : string) (st : state) :
  found key (this st) = Some line ->
  (JS.gt_one (JS.parseInt line) = true ->
   get auto_parse key st =
   (if throwError (this st) then Throw (KeyHasDuplicateValue key)
    else Return Undefined, st))
  /\ (JS.gt_one (JS.parseInt line) = false -> line <> "" ->
      get auto_parse key st =
      (Return (if autoParse (this st)
               then Parsed (auto_parse (value_text line))
               else match value_text line with
                    | Some text => Str text
                    | None => Undefined
                    end), st))
  /\ (forall text, after JS.EQ line = Some text -> count_char JS.EQ text = 0 ->
                   value_text line = Some text)
  /\ (after JS.EQ line = None -> value_text line = None).
Proof.
  intros Hf. split; [|split; [|split]].
  - intros Hp. rewrite get_eq, Hf.
    rewrite (truthy_some _ (parseInt_gt_one_not_empty _ Hp)), Hp. reflexivity.
  - intros Hp Hne. rewrite get_eq, Hf, (truthy_some _ Hne), Hp.
    rewrite second_between. reflexivity.
  - intros text Ha Hc. unfold value_text. rewrite Ha. simpl.
    now rewrite before_no_sep.
  - intros Ha. unfold value_text. now rewrite Ha.
Qed.

Lemma found_pushed_new (key v : string) (o : Noteable) :
  found key o = None -> count_char JS.EQ key = 0 ->
  found key (pushed o (key +:+ "=" +:+ v)) = Some (key +:+ "=" +:+ v).
Proof.
  intros Hf Hk. unfold found, pushed in *. simpl.
  rewrite (find_app_none _ _ _ Hf). unfold JS.find. simpl.
  now rewrite key_is_new_line.
Qed.

Lemma second_new_line (key v : string) :
  count_char JS.EQ key = 0 -> count_char JS.EQ v = 0 ->
  second (key +:+ "=" +:+ v) = Some v.
Proof.
  intros Hk Hv. rewrite second_between, eq_line, after_append by assumption.
  simpl. now rewrite before_no_sep.
Qed.

(** C1, amended: for a key that no line of the store has before its first
    [=], and a key and value without [=] or newline, such that the new line
    [key=value] does not parse from its start as an integer greater than 1,
    [set] succeeds and [get] then returns the value: passed through
    auto-parse when [autoParse] is set, as the raw string otherwise. *)
Theorem set_then_get (k v : string) (st : state) :
  absent k (this st) -> valid_text k -> valid_text v ->
  JS.gt_one (JS.parseInt (k +:+ "=" +:+ v)) = false ->
  (set resolve k v ;; get auto_parse k) st =
  (Return (read_value auto_parse (autoParse (this st)) (Some v)),
   snd (set resolve k v st)).
Proof.
  intros Ha [Hk _] [Hv _] Hp.
  apply includes_false_count in Hk. apply includes_false_count in Hv.
  pose proof (find_absent _ _ Ha) as Hf. fold (found k (this st)) in Hf.
  unfold bind. rewrite set_eq, Hf. simpl.
  rewrite get_eq. simpl this.
  fold (pushed (this st) (k +:+ "=" +:+ v)).
  rewrite (found_pushed_new _ _ _ Hf Hk).
  rewrite (truthy_some _ (new_line_not_empty k v)), Hp.
  rewrite (second_new_line _ _ Hk Hv). reflexivity.
Qed.

Lemma truthy_found_iff (key : string) (o : Noteable) :
  JS.truthy (found key o) = true <->
  exists l1 line l2,
    noteArray o = l1 ++ line :: l2 /\ before JS.EQ line = key /\ line <> ""
    /\ Forall (fun y => before JS.EQ y <> key) l1.
Proof.
  unfold found. split.
  - destruct (JS.find (key_is key) (noteArray o)) as [line|] eqn:E; [|discriminate].
    intros Ht. apply find_first in E. destruct E as (l1 & l2 & Hl & Hx & Hl1).
    exists l1, line, l2. repeat split; try assumption.
    + now apply key_is_true.
    + intros ->. discriminate Ht.
    + eapply List.Forall_impl; [|exact Hl1]. simpl. intros y Hy Hb.
      apply key_is_true in Hb. congruence.
  - intros (l1 & line & l2 & Hl & Hb & Hne & Hl1).
    assert (E : JS.find (key_is key) (noteArray o) = Some line).
    { apply find_first. exists l1, l2. repeat split; try assumption.
      - now apply key_is_true.
      - eapply List.Forall_impl; [|exact Hl1]. simpl. intros y Hy.
        destruct (key_is key y) eqn:Ey; [|reflexivity].
        apply key_is_true in Ey. contradiction. }
    rewrite E. now apply truthy_some.
Qed.

Lemma truthy_found_exists (key : string) (o : Noteable) :
  key <> "" ->
  JS.truthy (found key o) = true <->
  Exists (fun line => before JS.EQ line = key) (noteArray o).
Proof.
  intros Hk. unfold found, JS.find.
  induction (noteArray o) as [|x l IH]; simpl.
  - split; [discriminate | inversion 1].
  - destruct (key_is key x) eqn:E.
    + apply key_is_true in E. split.
      * intros _. now constructor.
      * intros _. apply truthy_some. intros ->. simpl in E. congruence.
    + rewrite IH. split.
      * intros H. now constructor 2.
      * intros H. apply List.Exists_cons in H. destruct H as [Hx|Hl]; [|assumption].
        apply key_is_true in Hx. congruence.
Qed.

(** C6, amended: [has(key)] is true exactly when the first line whose
    portion before the first [=] (all of a line without [=]) equals [key] is
    a non-empty string; for a non-empty key that is: exactly when some line
    has that portion equal to [key].  Lines without [=] take part with their
    full text, so a comment line whose text is [key] makes [has(key)] true. *)
Theorem has_matches_first_segment (key : string) (st : state) :
  has key st = (Return (JS.truthy (found key (this st))), st)
  /\ (JS.truthy (found key (this st)) = true <->
      exists l1 line l2,
        noteArray (this st) = l1 ++ line :: l2 /\ before JS.EQ line = key
        /\ line <> "" /\ Forall (fun y => before JS.EQ y <> key) l1)
  /\ (key <> "" ->
      (JS.truthy (found key (this st)) = true <->
       Exists (fun line => before JS.EQ line = key) (noteArray (this st))))
  /\ (key <> "" -> JS.includes JS.EQ key = false ->
      In key (noteArray (this st)) ->
      has key st = (Return true, st)).
Proof.
  split; [apply has_eq|]. split; [apply truthy_found_iff|].
  split; [apply truthy_found_exists|].
  intros Hk He Hin. rewrite has_eq. f_equal. f_equal.
  apply truthy_found_exists; [assumption|].
  apply List.Exists_exists. exists key. split; [assumption|].
  apply before_no_sep. now apply includes_false_count.
Qed.


Lemma remove_keeps_this (key : string) (st : state) :
  this (snd (remove resolve key st)) = this st.
Proof. rewrite remove_eq. destruct (negb _ && _); reflexivity. Qed.

Lemma remove_keeps_has (key k : string) (st : state) :
  fst (has k (snd (remove resolve key st))) = fst (has k st).
Proof. rewrite !has_eq. simpl. now rewrite remove_keeps_this. Qed.

Lemma set_then_has (k v : string) (st : state) :
  found k (this st) = None -> JS.includes JS.EQ k = false ->
  (set resolve k v ;; has k) st = (Return true, snd (set resolve k v st)).
Proof.
  intros Hf Hk. apply includes_false_count in Hk.
  unfold bind. rewrite set_eq, Hf. simpl. rewrite has_eq. simpl this.
  fold (pushed (this st) (k +:+ "=" +:+ v)).
  rewrite (found_pushed_new _ _ _ Hf Hk).
  now rewrite (truthy_some _ (new_line_not_empty k v)).
Qed.

End Methods.

(** ** Validation of a line *)

Lemma count_le_length (c : ascii) (s : string) : count_char c s <= JS.length s.
Proof.
  induction s as [|a s IH]; simpl; [lia|].
  destruct (Ascii.eqb a c); unfold JS.length in *; simpl; lia.
Qed.

Lemma invalid_line_accepted (line : string) :
  invalid_line line = negb (accepted line).
Proof.
  unfold invalid_line, accepted, blank.
  rewrite includes_count, split_length.
  pose proof (count_le_length JS.EQ line) as Hle.
  destruct (JS.startsWith "#" line);
    destruct (Nat.leb_spec (JS.length line) 1);
    destruct (Nat.ltb_spec 0 (count_char JS.EQ line));
    destruct (Nat.ltb_spec 2 (S (count_char JS.EQ line)));
    destruct (Nat.leb_spec (count_char JS.EQ line) 1);
    destruct (Nat.eqb_spec (count_char JS.EQ line) 1);
    simpl; try reflexivity; lia.
Qed.

Lemma accepted_grammar (line : string) :
  accepted line = grammar line && (count_char JS.EQ line <=? 1).
Proof.
  unfold accepted, grammar, blank.
  pose proof (count_le_length JS.EQ line) as Hle.
  destruct (JS.startsWith "#" line);
    destruct (Nat.leb_spec (JS.length line) 1);
    destruct (Nat.leb_spec (count_char JS.EQ line) 1);
    destruct (Nat.eqb_spec (count_char JS.EQ line) 1);
    simpl; try reflexivity; lia.
Qed.

Lemma filter_not_blank (l : list string) :
  Forall (fun line => blank line = false)
    (List.filter (fun line => 1 <? JS.length line) l).
Proof.
  apply List.Forall_forall. intros x Hx. apply filter_In in Hx.
  destruct Hx as [_ Hx]. unfold blank.
  destruct (Nat.ltb_spec 1 (JS.length x)); [|discriminate].
  destruct (Nat.leb_spec (JS.length x) 1); [lia | reflexivity].
Qed.

(** ** The constructor *)

Section Construction.

Variable resolve : string -> string.
Context {value : Type}.
Variable auto_parse : option string -> value.

Lemma effective_path_given (settings : Settings.settings) :
  JS.endsWith ".noteable" (effective_path settings) = false ->
  Settings.filePath settings = Some (effective_path settings).
Proof.
  unfold effective_path. destruct (Settings.filePath settings) as [p|].
  - destruct (negb (JS.truthy (Some p)) || String.eqb (JS.toLowerCase p) "default");
      [discriminate | reflexivity].
  - discriminate.
Qed.

(** With no directory missing, the creation of the file cannot fail. *)
Lemma constructor_unfold (settings : Settings.settings)
  (d : gmap string string) :
  constructor resolve settings d =
  let filePath := effective_path settings in
  let d :=
    if negb (existsSync resolve d (resolve filePath))
    then write_disk resolve d (resolve filePath) "" else d in
  if negb (JS.endsWith ".noteable" filePath)
  then (Throw (NotNoteableFile filePath), d)
  else
    match read_disk resolve d filePath with
    | None => (Throw (ENOENT filePath), d)
    | Some notes =>
        let o :=
          mkNoteable filePath notes
            (default true (Settings.autoParse settings))
            (default false (Settings.throwError settings))
            (JS.split JS.LF notes) in
        match check resolve every_directory (mkState o d) with
        | (Return _, st) => (Return (this st), fs st)
        | (Throw e, st) => (Throw e, fs st)
        end
    end.
Proof.
  unfold constructor, constructor_in, fs_write, every_directory. simpl.
  destruct (negb (existsSync resolve d (resolve (effective_path settings))));
    reflexivity.
Qed.

(** What a returning constructor guarantees, whatever [resolve] is. *)
Lemma constructor_returns (settings : Settings.settings)
  (d d' : gmap string string) (o : Noteable) :
  constructor resolve settings d = (Return o, d') ->
  filePath o = effective_path settings
  /\ JS.endsWith ".noteable" (filePath o) = true
  /\ noteArray o = JS.split JS.LF (notes o)
  /\ JS.findIndex invalid_line (noteArray o) = None
  /\ read_disk resolve d' (filePath o) =
     Some (JS.join "
" (List.filter (fun line => 1 <? JS.length line) (noteArray o))).
Proof.
  rewrite constructor_unfold. cbv zeta.
  set (p := effective_path settings).
  set (d1 := if negb (existsSync resolve d (resolve p))
             then write_disk resolve d (resolve p) "" else d).
  destruct (JS.endsWith ".noteable" p) eqn:Hext; simpl; [|discriminate].
  destruct (read_disk resolve d1 p) as [content|]; [|discriminate].
  rewrite check_eq. simpl.
  destruct (JS.findIndex invalid_line (JS.split JS.LF content)) eqn:Hidx;
    [discriminate|].
  intros [= <- <-]. simpl. repeat split; try assumption.
  unfold read_disk, write_disk. apply lookup_insert_eq.
Qed.

Hypothesis resolve_idem : forall p, resolve (resolve p) = resolve p.

Lemma constructor_eq (settings : Settings.settings) (d : gmap string string) :
  constructor resolve settings d =
  let p := effective_path settings in
  let lines := JS.split JS.LF (source resolve d p) in
  if negb (JS.endsWith ".noteable" p)
  then (Throw (NotNoteableFile p), created resolve d p)
  else
    match JS.findIndex invalid_line lines with
    | Some i => (Throw (LineNotValid (i + 1)), created resolve d p)
    | None =>
        (Return (mkNoteable p (source resolve d p)
                   (default true (Settings.autoParse settings))
                   (default false (Settings.throwError settings)) lines),
         write_disk resolve (created resolve d p) p
           (JS.join "
" (List.filter (fun line => 1 <? JS.length line) lines)))
    end.
Proof.
  rewrite constructor_unfold. cbv zeta.
  unfold source, created, existsSync, write_disk, read_disk.
  rewrite !resolve_idem.
  set (p := effective_path settings).
  destruct (JS.endsWith ".noteable" p); simpl.
  - destruct (d !! resolve p) as [content|] eqn:E; simpl.
    + rewrite E, check_eq. simpl.
      destruct (JS.findIndex invalid_line (JS.split JS.LF content)); reflexivity.
    + rewrite lookup_insert_eq, check_eq. simpl. reflexivity.
  - destruct (d !! resolve p); reflexivity.
Qed.

(** C10, amended: construction is not atomic on the extension error.  For
    every path given in the settings that is not empty, is not [default] in
    any letter case, is not on disk and does not end in [.noteable]: when
    the directory of the path exists, the constructor first creates an
    empty file at that path and only then throws the extension error, so
    the failed construction leaves a new empty file behind; when the
    directory is missing, creating the file fails, the constructor throws
    the [ENOENT] error of the file system and leaves the disk as it was. *)
Theorem constructor_creates_then_throws (dir_exists : string -> bool)
  (settings : Settings.settings) (d : gmap string string) (p : string) :
  Settings.filePath settings = Some p ->
  p <> "" -> JS.toLowerCase p <> "default" ->
  read_disk resolve d p = None ->
  JS.endsWith ".noteable" p = false ->
  (dir_exists (resolve p) = true ->
   constructor_in resolve dir_exists settings d =
   (Throw (NotNoteableFile p), write_disk resolve d p "")
   /\ read_disk resolve (write_disk resolve d p "") p = Some "")
  /\ (dir_exists (resolve p) = false ->
      constructor_in resolve dir_exists settings d =
      (Throw (ENOENT (resolve p)), d)).
Proof.
  intros Hs Hne Hdef Hnone Hext.
  assert (Hp : effective_path settings = p).
  { unfold effective_path. rewrite Hs, (truthy_some _ Hne). simpl.
    destruct (String.eqb_spec (JS.toLowerCase p) "default");
      [contradiction | reflexivity]. }
  unfold constructor_in, fs_write, existsSync, write_disk.
  rewrite Hp, !resolve_idem. unfold read_disk in Hnone. rewrite Hnone. simpl.
  split.
  - intros Hdir. rewrite Hdir, Hext. simpl. split; [reflexivity|].
    unfold read_disk. apply lookup_insert_eq.
  - intros Hdir. rewrite Hdir. reflexivity.
Qed.

(** C5, amended: with a path ending in [.noteable], construction succeeds
    for every file whose lines are each accepted: a comment starting with
    [#] that has at most one [=], a blank line (length at most 1), or a line
    with exactly one [=].  Such a comment is accepted and kept verbatim, with
    every other line, in the sequence of the instance.  When a line is not
    accepted, construction fails with the line-not-valid error carrying the
    1-based number of the first such line.  Accepted is the grammar of the
    specification with at most one [=] in any line. *)
Theorem constructor_validates (settings : Settings.settings)
  (d : gmap string string) :
  let p := effective_path settings in
  let lines := JS.split JS.LF (source resolve d p) in
  JS.endsWith ".noteable" p = true ->
  (forall line, invalid_line line = negb (accepted line))
  /\ (forall line, accepted line = grammar line && (count_char JS.EQ line <=? 1))
  /\ (Forall (fun line => accepted line = true) lines ->
      exists o d', constructor resolve settings d = (Return o, d')
                   /\ noteArray o = lines)
  /\ (forall l1 bad l2,
        lines = l1 ++ bad :: l2 -> accepted bad = false ->
        Forall (fun line => accepted line = true) l1 ->
        constructor resolve settings d =
        (Throw (LineNotValid (List.length l1 + 1)), created resolve d p)).
Proof.
  intros p lines Hext.
  split; [apply invalid_line_accepted|]. split; [apply accepted_grammar|].
  split.
  - intros Hall. rewrite constructor_eq. fold p. simpl. rewrite Hext. simpl.
    fold lines.
    assert (Hidx : JS.findIndex invalid_line lines = None).
    { apply findIndex_none. eapply List.Forall_impl; [|exact Hall].
      simpl. intros line Hl. now rewrite invalid_line_accepted, Hl. }
    rewrite Hidx. eexists _, _. split; reflexivity.
  - intros l1 bad l2 Hl Hbad Hl1. rewrite constructor_eq. fold p. simpl.
    rewrite Hext. simpl. fold lines.
    assert (Hidx : JS.findIndex invalid_line lines = Some (List.length l1)).
    { apply findIndex_some. exists l1, bad, l2. repeat split; try assumption.
      - now rewrite invalid_line_accepted, Hbad.
      - eapply List.Forall_impl; [|exact Hl1].
        simpl. intros line Hline. now rewrite invalid_line_accepted, Hline. }
    rewrite Hidx. reflexivity.
Qed.

(** After construction the file on disk holds the lines of the source
    file that are not blank (length greater than 1), in their order, joined
    by newlines. *)
Theorem constructor_compacts_file (settings : Settings.settings)
  (d d' : gmap string string) (o : Noteable) :
  constructor resolve settings d = (Return o, d') ->
  let data :=
    List.filter (fun line => 1 <? JS.length line)
      (JS.split JS.LF (source resolve d (filePath o))) in
  read_disk resolve d' (filePath o) = Some (JS.join "
" data)
  /\ Forall (fun line => blank line = false) data
  /\ (data <> [] -> JS.split JS.LF (JS.join "
" data) = data).
Proof.
  intros Hc data.
  assert (Hn : notes o = source resolve d (filePath o)).
  { destruct (constructor_returns _ _ _ _ Hc) as (Hp & _).
    rewrite constructor_eq in Hc. simpl in Hc.
    destruct (negb (JS.endsWith ".noteable" (effective_path settings)));
      [discriminate|].
    destruct (JS.findIndex invalid_line _); [discriminate|].
    injection Hc as <- _. reflexivity. }
  destruct (constructor_returns _ _ _ _ Hc) as (_ & _ & Ha & _ & Hr).
  rewrite Ha, Hn in Hr. fold data in Hr.
  split; [exact Hr|]. split; [apply filter_not_blank|].
  intros Hne. apply split_join; [assumption|].
  apply List.Forall_forall. intros x Hx. apply filter_In in Hx.
  destruct Hx as [Hx _].
  pose proof (split_segments JS.LF (source resolve d (filePath o))) as Hs.
  rewrite List.Forall_forall in Hs. now apply Hs.
Qed.

(** After [removeAll], a new instance on the same path holds one line, the
    empty one, and [getAll] has one entry for it. *)
Lemma removeAll_then_constructor (settings : Settings.settings) (st : state) :
  effective_path settings = filePath (this st) ->
  JS.endsWith ".noteable" (filePath (this st)) = true ->
  exists o d',
    constructor resolve settings (fs (snd (removeAll resolve st))) = (Return o, d')
    /\ noteArray o = [""]
    /\ getAll auto_parse (mkState o d') =
       (Return [(Some "", read_value auto_parse (autoParse o) None)],
        mkState o d').
Proof.
  intros Hp Hext. rewrite removeAll_eq. simpl.
  rewrite constructor_eq. simpl. rewrite Hp, Hext. simpl.
  unfold source, read_disk, write_disk. rewrite lookup_insert_eq. simpl.
  eexists _, _. split; [reflexivity|]. split; reflexivity.
Qed.

End Construction.

(** ** The snapshot [notes] and the growing array *)

Section Snapshot.

Variable resolve : string -> string.
Context {value : Type}.
Variable auto_parse : option string -> value.

Lemma grows_refl (o : Noteable) : grows o o.
Proof. repeat split. exists []. now rewrite app_nil_r. Qed.

Lemma grows_trans (o1 o2 o3 : Noteable) :
  grows o1 o2 -> grows o2 o3 -> grows o1 o3.
Proof.
  intros (Hf & Hn & Ha & Ht & e & He) (Hf' & Hn' & Ha' & Ht' & e' & He').
  repeat split; try congruence.
  exists (e ++ e'). rewrite He', He. now rewrite <- app_assoc.
Qed.

Lemma set_grows (k v : string) (st : state) :
  grows (this st) (this (snd (set resolve k v st))).
Proof.
  rewrite set_eq. destruct (JS.truthy (found k (this st))).
  - destruct (throwError (this st)); apply grows_refl.
  - simpl. repeat split. now exists [k +:+ "=" +:+ v].
Qed.

Lemma change_keeps_this (k v : string) (st : state) :
  this (snd (change resolve k v st)) = this st.
Proof. rewrite change_eq. destruct (negb _ && _); reflexivity. Qed.

Lemma removeAll_keeps_this (st : state) :
  this (snd (removeAll resolve st)) = this st.
Proof. reflexivity. Qed.

Lemma get_keeps_state (k : string) (st : state) :
  snd (get auto_parse k st) = st.
Proof. now rewrite get_eq. Qed.

Lemma has_keeps_state (k : string) (st : state) : snd (has k st) = st.
Proof. now rewrite has_eq. Qed.

Lemma getAll_keeps_state (st : state) : snd (getAll auto_parse st) = st.
Proof. reflexivity. Qed.




Lemma constructor_single_eq (settings : Settings.settings)
  (d d' : gmap string string) (o : Noteable) :
  constructor resolve settings d = (Return o, d') -> single_eq o.
Proof.
  intros Hc.
  destruct (constructor_returns resolve _ _ _ _ Hc) as (_ & _ & _ & Hidx & _).
  apply findIndex_none in Hidx. unfold single_eq.
  eapply List.Forall_impl; [|exact Hidx]. simpl. intros line Hl.
  unfold invalid_line in Hl. rewrite split_length in Hl.
  apply orb_false_elim in Hl. destruct Hl as [_ Hl].
  destruct (Nat.ltb_spec 2 (S (count_char JS.EQ line))); [discriminate | lia].
Qed.

Lemma set_single_eq (k v : string) (st : state) :
  single_eq (this st) -> count_char JS.EQ k = 0 -> count_char JS.EQ v = 0 ->
  single_eq (this (snd (set resolve k v st))).
Proof.
  intros Hs Hk Hv. rewrite set_eq. destruct (JS.truthy (found k (this st))).
  - destruct (throwError (this st)); exact Hs.
  - simpl. unfold single_eq, pushed. simpl. apply Forall_app. split; [exact Hs|].
    constructor; [|constructor].
    rewrite eq_line, count_append. simpl. lia.
Qed.

Lemma get_text_after_eq (key line : string) (st : state) :
  single_eq (this st) -> found key (this st) = Some line -> line <> "" ->
  JS.gt_one (JS.parseInt line) = false ->
  get auto_parse key st =
  (Return (read_value auto_parse (autoParse (this st)) (after JS.EQ line)), st).
Proof.
  intros Hs Hf Hne Hp. rewrite get_eq, Hf, (truthy_some _ Hne), Hp.
  rewrite second_after; [reflexivity|].
  unfold single_eq in Hs. rewrite List.Forall_forall in Hs. apply Hs.
  apply find_first in Hf. destruct Hf as (l1 & l2 & -> & _).
  apply in_or_app. right. now left.
Qed.

Lemma step_grows (c : call) (st : state) :
  grows (this st) (this (step resolve auto_parse c st)).
Proof.
  destruct c; unfold step.
  - rewrite get_keeps_state. apply grows_refl.
  - apply set_grows.
  - rewrite remove_keeps_this. apply grows_refl.
  - rewrite change_keeps_this. apply grows_refl.
  - rewrite has_keeps_state. apply grows_refl.
  - apply grows_refl.
  - apply grows_refl.
Qed.

Lemma steps_grows (cs : list call) (st : state) :
  grows (this st) (this (steps resolve auto_parse cs st)).
Proof.
  revert st. induction cs as [|c cs IH]; intros st; simpl.
  - apply grows_refl.
  - eapply grows_trans; [apply (step_grows c)|]. apply IH.
Qed.


End Snapshot.

(** ** Concrete runs *)

Lemma resolved_idem (p : string) : resolved (resolved p) = resolved p.
Proof. reflexivity. Qed.

Example fresh_default_file :
  constructor resolved (Settings.mk None None None) ∅ =
  (Return (mkNoteable "./note.noteable" "" true false [""]),
   {[ "./note.noteable" := "" ]}).
Proof. vm_compute. reflexivity. Qed.

Example years_scenario :
  constructor resolved n_settings (disk_with "years=2021") =
  (Return (store_of "years=2021" true), disk_with "years=2021")
  /\ result (get sample_parse "years"
               (mkState (store_of "years=2021" true) (disk_with "years=2021"))) =
     Return (Parsed (Some "2021")).
Proof. split; vm_compute; reflexivity. Qed.

(** C1, counterexample: on a new empty file the key [2] is not in the store,
    [2] and [x] have no [=] and no newline, [set('2', 'x')] succeeds, and
    [get('2')] returns [undefined], with [autoParse] on and off, and not
    the value that was set. *)
Lemma set_then_get_numeric_key :
  constructor resolved n_settings ∅ = (Return (store_of "" true), disk_with "")
  /\ constructor resolved n_settings_raw ∅ = (Return (store_of "" false), disk_with "")
  /\ absent "2" (store_of "" true) /\ absent "2" (store_of "" false)
  /\ valid_text "2" /\ valid_text "x"
  /\ result ((set resolved "2" "x" ;; get sample_parse "2")
               (mkState (store_of "" true) (disk_with ""))) = Return Undefined
  /\ result ((set resolved "2" "x" ;; get sample_parse "2")
               (mkState (store_of "" false) (disk_with ""))) = Return Undefined
  /\ Return Undefined <> Return (read_value sample_parse true (Some "x"))
  /\ Return Undefined <> Return (read_value sample_parse false (Some "x")).
Proof.
  repeat split; try (vm_compute; reflexivity); try discriminate.
  - repeat constructor. intros H. vm_compute in H. discriminate H.
  - repeat constructor. intros H. vm_compute in H. discriminate H.
Qed.

Lemma set_then_get_witness :
  absent "years" (store_of "" true)
  /\ (set resolved "years" "2022" ;; get sample_parse "years")
       (mkState (store_of "" true) (disk_with "")) =
     (Return (Parsed (Some "2022")),
      snd (set resolved "years" "2022" (mkState (store_of "" true) (disk_with "")))).
Proof.
  assert (Ha : absent "years" (store_of "" true)).
  { repeat constructor. intros H. vm_compute in H. discriminate H. }
  split; [exact Ha|].
  apply (set_then_get resolved sample_parse "years" "2022"
           (mkState (store_of "" true) (disk_with "")) Ha).
  - split; reflexivity.
  - split; reflexivity.
  - reflexivity.
Defined.

(** C2: on a store built from a file holding [years=2021], [has('years')]
    still returns [true] right after [remove('years')], although the file
    written by [remove] no longer has the line. *)
Theorem remove_then_has_still_true :
  constructor resolved n_settings (disk_with "years=2021") =
  (Return (store_of "years=2021" true), disk_with "years=2021")
  /\ (remove resolved "years" ;; has "years")
       (mkState (store_of "years=2021" true) (disk_with "years=2021")) =
     (Return true, mkState (store_of "years=2021" true) (disk_with "")).
Proof. split; vm_compute; reflexivity. Qed.

(** C3: on a store built from a file holding [a=1], [removeAll()] empties
    the file, and a new instance on the same path then has a sequence of one
    line, the empty one: [getAll()] returns one entry, not none. *)
Theorem removeAll_then_reload_getAll :
  constructor resolved n_settings (disk_with "a=1") =
  (Return (store_of "a=1" true), disk_with "a=1")
  /\ removeAll resolved (mkState (store_of "a=1" true) (disk_with "a=1")) =
     (Return tt, mkState (store_of "a=1" true) (disk_with ""))
  /\ constructor resolved n_settings (disk_with "") =
     (Return (store_of "" true), disk_with "")
  /\ noteArray (store_of "" true) = [""]
  /\ getAll sample_parse (mkState (store_of "" true) (disk_with "")) =
     (Return [(Some "", Parsed None)], mkState (store_of "" true) (disk_with "")).
Proof. repeat split; vm_compute; reflexivity. Qed.

(** C4: a file with a blank line between two pairs.  After construction
    the file has lost the blank line, but the sequence in memory still holds
    it and [getAll()] has an entry for it; the next [set] writes the blank
    line back to the file. *)
Theorem blank_line_stays_in_memory :
  constructor resolved n_settings (disk_with "a=1

b=2") =
  (Return (store_of "a=1

b=2" true), disk_with "a=1
b=2")
  /\ noteArray (store_of "a=1

b=2" true) = ["a=1"; ""; "b=2"]
  /\ blank "" = true
  /\ result (getAll sample_parse (mkState (store_of "a=1

b=2" true) (disk_with "a=1
b=2"))) =
     Return [(Some "a", Parsed (Some "1")); (Some "", Parsed None);
             (Some "b", Parsed (Some "2"))]
  /\ fs (snd (set resolved "c" "3" (mkState (store_of "a=1

b=2" true) (disk_with "a=1
b=2")))) = disk_with "a=1

b=2
c=3".
Proof. repeat split; vm_compute; reflexivity. Qed.

Lemma constructor_compacts_file_witness :
  read_disk resolved (disk_with "a=1
b=2") "n.noteable" = Some "a=1
b=2".
Proof.
  exact (proj1 (constructor_compacts_file resolved resolved_idem n_settings
                  (disk_with "a=1

b=2") (disk_with "a=1
b=2") (store_of "a=1

b=2" true) eq_refl)).
Defined.

(** C5, counterexample: the one line of the file starts with [#], so it is
    a comment of the grammar, and construction fails on it: a comment with
    two [=] is not accepted. *)
Lemma comment_with_two_eq_rejected :
  JS.split JS.LF "#a=b=c" = ["#a=b=c"]
  /\ JS.startsWith "#" "#a=b=c" = true
  /\ grammar "#a=b=c" = true
  /\ constructor resolved n_settings (disk_with "#a=b=c") =
     (Throw (LineNotValid 1), disk_with "#a=b=c").
Proof. repeat split; vm_compute; reflexivity. Qed.

Lemma constructor_validates_witness :
  JS.endsWith ".noteable" (effective_path n_settings) = true
  /\ exists o d',
       constructor resolved n_settings (disk_with "# a comment
years=2021") = (Return o, d')
       /\ noteArray o = ["# a comment"; "years=2021"].
Proof.
  split; [reflexivity|].
  apply (constructor_validates resolved resolved_idem n_settings
           (disk_with "# a comment
years=2021") eq_refl).
  repeat constructor.
Defined.

(** C6, counterexample: the store holds the comment line [#note], which
    has no [=], and [has('#note')] returns [true]. *)
Lemma has_matches_comment_line :
  constructor resolved n_settings (disk_with "#note") =
  (Return (store_of "#note" true), disk_with "#note")
  /\ In "#note" (noteArray (store_of "#note" true))
  /\ JS.includes JS.EQ "#note" = false
  /\ has "#note" (mkState (store_of "#note" true) (disk_with "#note")) =
     (Return true, mkState (store_of "#note" true) (disk_with "#note")).
Proof. repeat split; try (vm_compute; reflexivity). now left. Qed.

Lemma get_duplicate_guard_witness :
  found "2021" (store_of "2021=x" true) = Some "2021=x"
  /\ get sample_parse "2021" (mkState (store_of "2021=x" true) (disk_with "2021=x")) =
     (Return Undefined, mkState (store_of "2021=x" true) (disk_with "2021=x"))
  /\ get sample_parse "years"
       (mkState (store_of "years=2021" true) (disk_with "years=2021")) =
     (Return (Parsed (Some "2021")),
      mkState (store_of "years=2021" true) (disk_with "years=2021"))
  /\ get sample_parse "years"
       (mkState (store_of "years=2021" false) (disk_with "years=2021")) =
     (Return (Str "2021"),
      mkState (store_of "years=2021" false) (disk_with "years=2021")).
Proof.
  split; [reflexivity|]. split; [|split].
  - apply (proj1 (get_duplicate_guard sample_parse "2021" "2021=x"
                    (mkState (store_of "2021=x" true) (disk_with "2021=x")) eq_refl)).
    reflexivity.
  - apply (proj1 (proj2 (get_duplicate_guard sample_parse "years" "years=2021"
                    (mkState (store_of "years=2021" true)
                       (disk_with "years=2021")) eq_refl))).
    + reflexivity.
    + discriminate.
  - apply (proj1 (proj2 (get_duplicate_guard sample_parse "years" "years=2021"
                    (mkState (store_of "years=2021" false)
                       (disk_with "years=2021")) eq_refl))).
    + reflexivity.
    + discriminate.
Defined.

(** C7, counterexample: after [set('b', '1=2')] the line found for [b] is
    [b=1=2], which does not parse as an integer; the text after its first
    [=] is [1=2], and [get('b')] returns [1], raw or through auto-parse. *)
Lemma get_stops_at_second_eq :
  found "b" (this (snd (set resolved "b" "1=2"
                          (mkState (store_of "a=1" false) (disk_with "a=1"))))) =
  Some "b=1=2"
  /\ JS.gt_one (JS.parseInt "b=1=2") = false
  /\ after JS.EQ "b=1=2" = Some "1=2"
  /\ result ((set resolved "b" "1=2" ;; get sample_parse "b")
               (mkState (store_of "a=1" false) (disk_with "a=1"))) =
     Return (Str "1")
  /\ result ((set resolved "b" "1=2" ;; get sample_parse "b")
               (mkState (store_of "a=1" true) (disk_with "a=1"))) =
     Return (Parsed (sample_parse (Some "1")))
  /\ Str (value := option string) "1" <> Str "1=2"
  /\ Parsed (sample_parse (Some "1")) <> Parsed (sample_parse (Some "1=2")).
Proof. repeat split; try (vm_compute; reflexivity); discriminate. Qed.



(** C10, counterexample: the path [nodir/x.txt] is not on disk and does not
    end in [.noteable], but its directory is missing: the constructor throws
    the [ENOENT] error of the file system, creates no file and does not
    reach the extension error.  And for the path [DEFAULT], not on disk and
    without the extension either, the constructor uses [./note.noteable],
    returns, and creates no file at [DEFAULT]. *)
Lemma constructor_in_missing_directory :
  read_disk resolved ∅ "nodir/x.txt" = None
  /\ JS.endsWith ".noteable" "nodir/x.txt" = false
  /\ constructor_in resolved without_nodir nodir_settings ∅ =
     (Throw (ENOENT "nodir/x.txt"), ∅)
  /\ read_disk resolved ∅ "DEFAULT" = None
  /\ JS.endsWith ".noteable" "DEFAULT" = false
  /\ constructor_in resolved without_nodir default_settings ∅ =
     (Return (mkNoteable "./note.noteable" "" true false [""]),
      {[ "./note.noteable" := "" ]})
  /\ read_disk resolved {[ "./note.noteable" := "" ]} "DEFAULT" = None.
Proof. repeat split; vm_compute; reflexivity. Qed.

Lemma constructor_creates_then_throws_witness :
  read_disk resolved ∅ "notes.txt" = None
  /\ JS.endsWith ".noteable" "notes.txt" = false
  /\ without_nodir (resolved "notes.txt") = true
  /\ constructor_in resolved without_nodir txt_settings ∅ =
     (Throw (NotNoteableFile "notes.txt"), {[ "notes.txt" := "" ]})
  /\ constructor_in resolved without_nodir nodir_settings ∅ =
     (Throw (ENOENT "nodir/x.txt"), ∅).
Proof.
  split; [reflexivity|]. split; [reflexivity|]. split; [reflexivity|]. split.
  - refine (eq_trans (proj1 (proj1
      (constructor_creates_then_throws resolved resolved_idem without_nodir
         txt_settings ∅ "notes.txt" eq_refl _ _ eq_refl eq_refl) eq_refl)) _);
      [discriminate | discriminate |].
    vm_compute. reflexivity.
  - refine (proj2
      (constructor_creates_then_throws resolved resolved_idem without_nodir
         nodir_settings ∅ "nodir/x.txt" eq_refl _ _ eq_refl eq_refl) eq_refl);
      discriminate.
Defined.


(** * Further properties of the class *)

(** ** [parseInt] on a line looks at the key only *)

Lemma strip_sign_match (s : string) :
  match s with
  | String "-"%char r => ((-1)%Z, r)
  | String "+"%char r => (1%Z, r)
  | _ => (1%Z, s)
  end = strip_sign s.
Proof.
  destruct s as [|c r]; [reflexivity|].
  destruct c as [[] [] [] [] [] [] [] []]; reflexivity.
Qed.

Lemma strip_prefix_match (s : string) :
  match s with
  | String "0"%char (String x t) =>
      if Ascii.eqb x "x" || Ascii.eqb x "X" then (16%Z, t) else (10%Z, s)
  | _ => (10%Z, s)
  end = strip_prefix s.
Proof.
  destruct s as [|a [|x t]]; try reflexivity;
    destruct a as [[] [] [] [] [] [] [] []]; reflexivity.
Qed.

Lemma parseInt_steps (input : string) :
  JS.parseInt input = parse_trimmed (JS.trimStart input).
Proof.
  unfold JS.parseInt, parse_trimmed.
  rewrite strip_sign_match.
  destruct (strip_sign (JS.trimStart input)) as [sign s1].
  rewrite strip_prefix_match. reflexivity.
Qed.

Lemma trimStart_line (k v : string) :
  JS.trimStart (k +:+ String JS.EQ v) = JS.trimStart k +:+ String JS.EQ v.
Proof.
  induction k as [|c k IH]; [reflexivity|].
  change (String c k +:+ String JS.EQ v) with (String c (k +:+ String JS.EQ v)).
  simpl. destruct (JS.is_white c); [exact IH | reflexivity].
Qed.

Lemma digits_line (R : Z) (s v : string) (acc : Z) (seen : bool) :
  JS.digits R (s +:+ String JS.EQ v) acc seen = JS.digits R s acc seen.
Proof.
  revert acc seen. induction s as [|c s IH]; intros acc seen; [reflexivity|].
  change (String c s +:+ String JS.EQ v) with (String c (s +:+ String JS.EQ v)).
  simpl. destruct (JS.digit_value c) as [d|]; [|reflexivity].
  destruct (d <? R)%Z; [apply IH | reflexivity].
Qed.

Lemma strip_prefix_line (s v : string) :
  (let '(R, s2) := strip_prefix (s +:+ String JS.EQ v) in
   JS.digits R s2 0%Z false) =
  (let '(R, s2) := strip_prefix s in JS.digits R s2 0%Z false).
Proof.
  destruct s as [|a [|x r]].
  - destruct v; reflexivity.
  - change (String a "" +:+ String JS.EQ v) with (String a (String JS.EQ v)).
    unfold strip_prefix.
    change (Ascii.eqb JS.EQ "x" || Ascii.eqb JS.EQ "X") with false.
    rewrite andb_false_r.
    apply (digits_line 10 (String a "") v).
  - change (String a (String x r) +:+ String JS.EQ v)
      with (String a (String x (r +:+ String JS.EQ v))).
    unfold strip_prefix.
    destruct (Ascii.eqb a "0" && (Ascii.eqb x "x" || Ascii.eqb x "X")).
    + apply digits_line.
    + apply (digits_line 10 (String a (String x r)) v).
Qed.

Lemma parse_trimmed_line (s v : string) :
  parse_trimmed (s +:+ String JS.EQ v) = parse_trimmed s.
Proof.
  unfold parse_trimmed.
  destruct s as [|c r].
  - destruct v; reflexivity.
  - change (String c r +:+ String JS.EQ v) with (String c (r +:+ String JS.EQ v)).
    unfold strip_sign.
    destruct (Ascii.eqb c "-"); [|destruct (Ascii.eqb c "+")].
    + pose proof (strip_prefix_line r v) as H.
      destruct (strip_prefix (r +:+ String JS.EQ v)), (strip_prefix r).
      now rewrite H.
    + pose proof (strip_prefix_line r v) as H.
      destruct (strip_prefix (r +:+ String JS.EQ v)), (strip_prefix r).
      now rewrite H.
    + pose proof (strip_prefix_line (String c r) v) as H.
      change (String c r +:+ String JS.EQ v)
        with (String c (r +:+ String JS.EQ v)) in H.
      destruct (strip_prefix (String c (r +:+ String JS.EQ v))),
        (strip_prefix (String c r)).
      now rewrite H.
Qed.

Lemma parseInt_of_line (key v : string) :
  JS.parseInt (key +:+ "=" +:+ v) = JS.parseInt key.
Proof.
  rewrite eq_line, !parseInt_steps, trimStart_line. apply parse_trimmed_line.
Qed.

(** X1: the number [get] compares with 1 is read off the key alone: for
    every key and value, [parseInt] of the line [key=value] is [parseInt]
    of the key. *)
Theorem parseInt_line_is_parseInt_key (key v : string) :
  JS.parseInt (key +:+ "=" +:+ v) = JS.parseInt key.
Proof. exact (parseInt_of_line key v). Qed.

(** ** What the methods do to one instance *)

Section InMemory.

Variable resolve : string -> string.
Context {value : Type}.
Variable auto_parse : option string -> value.

Lemma before_has_no_sep (c : ascii) (s : string) : count_char c (before c s) = 0.
Proof.
  induction s as [|a s IH]; simpl; [reflexivity|].
  destruct (Ascii.eqb a c) eqn:E; simpl; [reflexivity|].
  now rewrite E, IH.
Qed.

Lemma found_key_with_eq (k : string) (o : Noteable) :
  0 < count_char JS.EQ k -> found k o = None.
Proof.
  intros Hk. unfold found, JS.find.
  induction (noteArray o) as [|x l IH]; simpl; [reflexivity|].
  destruct (key_is k x) eqn:E; [|exact IH].
  apply key_is_true in E. pose proof (before_has_no_sep JS.EQ x) as Hb.
  rewrite E in Hb. lia.
Qed.

Lemma get_after_set (k v : string) (st : state) :
  found k (this st) = None ->
  count_char JS.EQ k = 0 -> count_char JS.EQ v = 0 ->
  JS.gt_one (JS.parseInt k) = false ->
  get auto_parse k (snd (set resolve k v st)) =
  (Return (read_value auto_parse (autoParse (this st)) (Some v)),
   snd (set resolve k v st)).
Proof.
  intros Hf Hk Hv Hp. rewrite set_eq, Hf. simpl.
  rewrite get_eq. simpl this.
  fold (pushed (this st) (k +:+ "=" +:+ v)).
  rewrite (found_pushed_new _ _ _ Hf Hk).
  rewrite (truthy_some _ (new_line_not_empty k v)).
  rewrite parseInt_of_line, Hp.
  now rewrite (second_new_line _ _ Hk Hv).
Qed.

(** X2: a key that [parseInt] reads as an integer above 1 (such as [2021])
    cannot be read back: when no line has that key, [set] adds the line,
    and [get] of the key then returns [undefined], or throws the
    duplicate-value error when [throwError] is set, whatever the value. *)
Theorem numeric_key_cannot_be_read (k v : string) (st : state) :
  absent k (this st) -> JS.includes JS.EQ k = false ->
  JS.gt_one (JS.parseInt k) = true ->
  (set resolve k v ;; get auto_parse k) st =
  (if throwError (this st) then Throw (KeyHasDuplicateValue k)
   else Return Undefined, snd (set resolve k v st)).
Proof.
  intros Ha Hk Hp. apply includes_false_count in Hk.
  pose proof (find_absent _ _ Ha) as Hf. fold (found k (this st)) in Hf.
  unfold bind. rewrite set_eq, Hf. simpl.
  rewrite get_eq. simpl this.
  fold (pushed (this st) (k +:+ "=" +:+ v)).
  rewrite (found_pushed_new _ _ _ Hf Hk).
  rewrite (truthy_some _ (new_line_not_empty k v)).
  rewrite parseInt_of_line, Hp. reflexivity.
Qed.

(** X3: a key that contains [=] is never found.  On every store [has]
    returns [false] for it and [get] returns [undefined] (or throws the
    key-not-found error when [throwError] is set); [set] therefore never
    refuses it and appends a line each time it is called. *)
Theorem key_with_equals_never_found (k : string) (st : state) :
  JS.includes JS.EQ k = true ->
  has k st = (Return false, st)
  /\ get auto_parse k st =
     (if throwError (this st) then Throw (KeyDoesntExist k)
      else Return Undefined, st)
  /\ (forall v, fst (set resolve k v st) = Return tt
                /\ this (snd (set resolve k v st)) =
                   pushed (this st) (k +:+ "=" +:+ v))
  /\ (forall v, has k (snd (set resolve k v st)) =
                (Return false, snd (set resolve k v st))).
Proof.
  intros Hk. rewrite includes_count in Hk.
  apply Nat.ltb_lt in Hk.
  split; [|split; [|split]].
  - now rewrite has_eq, found_key_with_eq.
  - now rewrite get_eq, found_key_with_eq.
  - intros v. rewrite set_eq, found_key_with_eq by assumption. now split.
  - intros v. now rewrite has_eq, found_key_with_eq.
Qed.

(** X4: the first value wins.  After [set(k, v1)] has added a key without
    [=] that no line had, [set(k, v2)] is refused: it throws the
    key-exists error when [throwError] is set and does nothing otherwise,
    and in both cases the object and the file stay as the first call left
    them. *)
Theorem set_twice_keeps_first (k v1 v2 : string) (st : state) :
  absent k (this st) -> JS.includes JS.EQ k = false ->
  (set resolve k v1 ;; set resolve k v2) st =
  (if throwError (this st) then Throw (KeyAlreadyExists k) else Return tt,
   snd (set resolve k v1 st)).
Proof.
  intros Ha Hk. apply includes_false_count in Hk.
  pose proof (find_absent _ _ Ha) as Hf. fold (found k (this st)) in Hf.
  unfold bind. rewrite set_eq, Hf. simpl.
  rewrite set_eq. simpl this.
  fold (pushed (this st) (k +:+ "=" +:+ v1)).
  rewrite (found_pushed_new _ _ _ Hf Hk).
  rewrite (truthy_some _ (new_line_not_empty k v1)). reflexivity.
Qed.

(** X5: [get] throws only when [throwError] is set, and then only the
    key-not-found or the duplicate-value error for the key asked: the
    no-note-found error in its body is never thrown. *)
Theorem get_throws_only_when_asked (key : string) (st : state) (e : error) :
  fst (get auto_parse key st) = Throw e ->
  throwError (this st) = true
  /\ (e = KeyDoesntExist key \/ e = KeyHasDuplicateValue key)
  /\ e <> NoNoteFound key.
Proof.
  rewrite get_eq. cbn [fst].
  destruct (found key (this st)) as [line|];
    [destruct (JS.truthy (Some line)); [destruct (JS.gt_one _)|]|];
    destruct (throwError (this st)); intros H; try discriminate H;
    injection H as <-; (split; [reflexivity|]); (split; [auto | discriminate]).
Qed.

(** X6: a method that throws has changed nothing: when [get], [set],
    [remove] or [change] throws, the object and the disk are as before the
    call. *)
Theorem throwing_call_changes_nothing (k v : string) (st : state) (e : error) :
  (fst (get auto_parse k st) = Throw e -> snd (get auto_parse k st) = st)
  /\ (fst (set resolve k v st) = Throw e -> snd (set resolve k v st) = st)
  /\ (fst (remove resolve k st) = Throw e -> snd (remove resolve k st) = st)
  /\ (fst (change resolve k v st) = Throw e -> snd (change resolve k v st) = st).
Proof.
  split; [|split; [|split]].
  - intros _. now rewrite get_eq.
  - rewrite set_eq. destruct (JS.truthy _); [|discriminate].
    destruct (throwError (this st)); reflexivity.
  - rewrite remove_eq. destruct (negb _ && _); [reflexivity | discriminate].
  - rewrite change_eq. destruct (negb _ && _); [reflexivity | discriminate].
Qed.

(** X7: with [throwError] off no method throws: [get], [set], [remove],
    [change] all return, on every store and for every key and value. *)
Theorem quiet_mode_never_throws (k v : string) (st : state) :
  throwError (this st) = false ->
  (exists x, fst (get auto_parse k st) = Return x)
  /\ fst (set resolve k v st) = Return tt
  /\ fst (remove resolve k st) = Return tt
  /\ fst (change resolve k v st) = Return tt.
Proof.
  intros Ht. split; [|split; [|split]].
  - rewrite get_eq, Ht. cbn [fst].
    destruct (found k (this st)) as [line|]; [|now eexists].
    destruct (JS.truthy (Some line)); [|now eexists].
    destruct (JS.gt_one _); now eexists.
  - rewrite set_eq, Ht. now destruct (JS.truthy _).
  - now rewrite remove_eq, Ht, andb_false_r.
  - now rewrite change_eq, Ht, andb_false_r.
Qed.

(** X8: [change], [remove] and [removeAll] write the file and leave the
    instance alone: after any of them, [get], [has] and [getAll] on the same
    instance return what they returned before the call. *)
Theorem writes_not_seen_in_memory (k v key : string) (st : state) :
  let after_change := snd (change resolve k v st) in
  let after_remove := snd (remove resolve k st) in
  let after_removeAll := snd (removeAll resolve st) in
  (fst (get auto_parse key after_change) = fst (get auto_parse key st)
   /\ fst (has key after_change) = fst (has key st)
   /\ fst (getAll auto_parse after_change) = fst (getAll auto_parse st))
  /\ (fst (get auto_parse key after_remove) = fst (get auto_parse key st)
      /\ fst (has key after_remove) = fst (has key st)
      /\ fst (getAll auto_parse after_remove) = fst (getAll auto_parse st))
  /\ (fst (get auto_parse key after_removeAll) = fst (get auto_parse key st)
      /\ fst (has key after_removeAll) = fst (has key st)
      /\ fst (getAll auto_parse after_removeAll) = fst (getAll auto_parse st)
      /\ read_disk resolve (fs after_removeAll) (filePath (this st)) = Some "").
Proof.
  intros after_change after_remove after_removeAll.
  assert (Hc : this after_change = this st) by apply change_keeps_this.
  assert (Hr : this after_remove = this st) by apply remove_keeps_this.
  assert (Ha : this after_removeAll = this st) by reflexivity.
  rewrite !get_eq, !has_eq, !getAll_eq. simpl. rewrite Hc, Hr.
  repeat split. unfold read_disk, write_disk. apply lookup_insert_eq.
Qed.

End InMemory.

(** ** A second instance on the file the first one wrote *)

Section Reload.

Variable resolve : string -> string.
Context {value : Type}.
Variable auto_parse : option string -> value.

Lemma constructor_fields (settings : Settings.settings)
  (d d' : gmap string string) (o : Noteable) :
  constructor resolve settings d = (Return o, d') ->
  autoParse o = default true (Settings.autoParse settings)
  /\ throwError o = default false (Settings.throwError settings).
Proof.
  rewrite constructor_unfold. cbv zeta.
  destruct (negb (JS.endsWith ".noteable" (effective_path settings)));
    [discriminate|].
  destruct (read_disk resolve _ _) as [content|]; [|discriminate].
  rewrite check_eq. simpl.
  destruct (JS.findIndex invalid_line (JS.split JS.LF content)); [discriminate|].
  intros [= <- _]. now split.
Qed.

Lemma read_write_disk (d : gmap string string) (p text : string) :
  read_disk resolve (write_disk resolve d p text) p = Some text.
Proof. unfold read_disk, write_disk. apply lookup_insert_eq. Qed.

Lemma write_same_disk (d : gmap string string) (p text : string) :
  read_disk resolve d p = Some text -> write_disk resolve d p text = d.
Proof. unfold read_disk, write_disk. apply insert_id. Qed.

Lemma find_filter_none {A} (p : A -> bool) (l : list A) :
  JS.find p (List.filter (fun x => negb (p x)) l) = None.
Proof.
  unfold JS.find. induction l as [|x l IH]; simpl; [reflexivity|].
  destruct (p x) eqn:E; simpl; [exact IH | now rewrite E].
Qed.

Lemma find_map_same {A} (p : A -> bool) (f : A -> A) (l : list A) :
  (forall x, p (f x) = p x) ->
  JS.find p (List.map f l) = option_map f (JS.find p l).
Proof.
  intros Hp. unfold JS.find. induction l as [|x l IH]; simpl; [reflexivity|].
  rewrite Hp. destruct (p x); [reflexivity | exact IH].
Qed.

Lemma compacted_twice (l : list string) : compacted (compacted l) = compacted l.
Proof.
  unfold compacted. induction l as [|x l IH]; simpl; [reflexivity|].
  destruct (1 <? JS.length x) eqn:E; simpl; [now rewrite E, IH | exact IH].
Qed.

Lemma before_count_other (c c' : ascii) (s : string) :
  count_char c (before c' s) <= count_char c s.
Proof.
  induction s as [|a s IH]; simpl; [lia|].
  destruct (Ascii.eqb a c'); simpl; lia.
Qed.

Lemma new_line_count_eq (k v : string) :
  count_char JS.EQ (k +:+ "=" +:+ v) =
  count_char JS.EQ k + S (count_char JS.EQ v).
Proof. rewrite eq_line, count_append. reflexivity. Qed.

Lemma new_line_count_lf (k v : string) :
  count_char JS.LF (k +:+ "=" +:+ v) =
  count_char JS.LF k + count_char JS.LF v.
Proof. rewrite eq_line, count_append. reflexivity. Qed.

Lemma line_with_one_eq_valid (line : string) :
  count_char JS.EQ line = 1 -> invalid_line line = false.
Proof.
  intros H. rewrite invalid_line_accepted. unfold accepted.
  rewrite H. simpl. now rewrite orb_true_r.
Qed.

Lemma line_with_two_eq_invalid (line : string) :
  2 <= count_char JS.EQ line -> invalid_line line = true.
Proof.
  intros H. unfold invalid_line. rewrite split_length.
  destruct (Nat.ltb_spec 2 (S (count_char JS.EQ line))); [|lia].
  apply orb_true_r.
Qed.

Hypothesis resolve_idem : forall p, resolve (resolve p) = resolve p.

Lemma constructor_on_text (settings : Settings.settings)
  (d : gmap string string) (text : string) :
  read_disk resolve d (effective_path settings) = Some text ->
  JS.endsWith ".noteable" (effective_path settings) = true ->
  constructor resolve settings d =
  match JS.findIndex invalid_line (JS.split JS.LF text) with
  | Some i => (Throw (LineNotValid (i + 1)), d)
  | None =>
      (Return (mkNoteable (effective_path settings) text
                 (default true (Settings.autoParse settings))
                 (default false (Settings.throwError settings))
                 (JS.split JS.LF text)),
       write_disk resolve d (effective_path settings)
         (JS.join "
" (compacted (JS.split JS.LF text))))
  end.
Proof.
  intros Hr Hext. rewrite (constructor_eq resolve resolve_idem). simpl.
  rewrite Hext. unfold source, created. rewrite Hr. reflexivity.
Qed.

Lemma constructor_notes (settings : Settings.settings)
  (d d' : gmap string string) (o : Noteable) :
  constructor resolve settings d = (Return o, d') ->
  notes o = source resolve d (filePath o).
Proof.
  intros Hc.
  destruct (constructor_returns resolve _ _ _ _ Hc) as (Hp & _).
  rewrite (constructor_eq resolve resolve_idem) in Hc. simpl in Hc.
  destruct (negb (JS.endsWith ".noteable" (effective_path settings)));
    [discriminate|].
  destruct (JS.findIndex invalid_line _); [discriminate|].
  injection Hc as <- _. reflexivity.
Qed.

Lemma lines_of_constructor (settings : Settings.settings)
  (d d' : gmap string string) (o : Noteable) :
  constructor resolve settings d = (Return o, d') ->
  Forall (fun x => count_char JS.LF x = 0) (noteArray o)
  /\ Forall (fun x => invalid_line x = false) (noteArray o)
  /\ noteArray o <> [].
Proof.
  intros Hc.
  destruct (constructor_returns resolve _ _ _ _ Hc) as (_ & _ & Ha & Hidx & _).
  split; [|split].
  - rewrite Ha. apply split_segments.
  - now apply findIndex_none.
  - rewrite Ha, split_unfold. discriminate.
Qed.

(** X9: what [set] writes, a new instance reads back.  After construction
    and a [set(k, v)] of a key no line has, with no [=] or newline in key and
    value, constructing again on the same file succeeds and gives the lines
    the first instance holds in memory, in the same order, the new line
    last; and unless the key parses as an integer above 1, [get(k)] on the
    new instance returns [v]. *)
Theorem set_survives_reload (settings : Settings.settings)
  (d d1 : gmap string string) (o : Noteable) (k v : string) :
  constructor resolve settings d = (Return o, d1) ->
  absent k o -> valid_text k -> valid_text v ->
  let st' := snd (set resolve k v (mkState o d1)) in
  exists o' d',
    constructor resolve settings (fs st') = (Return o', d')
    /\ noteArray o' = noteArray (this st')
    /\ noteArray o' = noteArray o ++ [k +:+ "=" +:+ v]
    /\ (JS.gt_one (JS.parseInt k) = false ->
        get auto_parse k (mkState o' d') =
        (Return (read_value auto_parse (autoParse o) (Some v)), mkState o' d')).
Proof.
  intros Hc Habs [Hk Hkl] [Hv Hvl] st'.
  apply includes_false_count in Hk, Hkl, Hv, Hvl.
  destruct (constructor_returns resolve _ _ _ _ Hc) as (Hp & Hext & _).
  destruct (constructor_fields _ _ _ _ Hc) as (Hap & _).
  destruct (lines_of_constructor _ _ _ _ Hc) as (Hlf & Hval & _).
  pose proof (find_absent _ _ Habs) as Hf. fold (found k o) in Hf.
  set (line := k +:+ "=" +:+ v).
  assert (Hst : st' = mkState (pushed o line)
            (write_disk resolve d1 (filePath o) (JS.join "
" (noteArray o ++ [line])))).
  { subst st'. rewrite set_eq. simpl. now rewrite Hf. }
  assert (Hsplit : JS.split JS.LF (JS.join "
" (noteArray o ++ [line])) = noteArray o ++ [line]).
  { apply split_join; [now destruct (noteArray o)|].
    apply Forall_app. split; [exact Hlf|]. constructor; [|constructor].
    subst line. rewrite new_line_count_lf. lia. }
  assert (Hidx : JS.findIndex invalid_line (noteArray o ++ [line]) = None).
  { apply findIndex_none. apply Forall_app. split; [exact Hval|].
    constructor; [|constructor]. apply line_with_one_eq_valid.
    subst line. rewrite new_line_count_eq. lia. }
  rewrite Hst. simpl fs. simpl this.
  rewrite (constructor_on_text settings _ (JS.join "
" (noteArray o ++ [line]))); [|rewrite <- Hp; apply read_write_disk | now rewrite <- Hp].
  rewrite Hsplit, Hidx. eexists _, _. split; [reflexivity|].
  split; [reflexivity|]. split; [reflexivity|].
  intros Hg. rewrite get_eq. simpl this.
  assert (Hfound : found k
            (mkNoteable (effective_path settings)
               (JS.join "
" (noteArray o ++ [line]))
               (default true (Settings.autoParse settings))
               (default false (Settings.throwError settings))
               (noteArray o ++ [line])) = Some line).
  { unfold found. simpl. unfold found in Hf.
    rewrite (find_app_none _ _ _ Hf). unfold JS.find. simpl.
    subst line. now rewrite key_is_new_line. }
  rewrite Hfound. subst line.
  rewrite (truthy_some _ (new_line_not_empty k v)).
  rewrite parseInt_of_line, Hg.
  rewrite (second_new_line _ _ Hk Hv). simpl. now rewrite Hap.
Qed.

(** X10: [set] does not check the value.  After construction, a [set(k, v)]
    of a key no line has, where the value contains [=], writes a file that
    the constructor then rejects: constructing again on the same file
    throws the line-not-valid error for the line just added, the last one,
    and leaves the file as [set] wrote it. *)
Theorem set_value_with_eq_breaks_reload (settings : Settings.settings)
  (d d1 : gmap string string) (o : Noteable) (k v : string) :
  constructor resolve settings d = (Return o, d1) ->
  absent k o -> valid_text k ->
  JS.includes JS.EQ v = true -> JS.includes JS.LF v = false ->
  let st' := snd (set resolve k v (mkState o d1)) in
  constructor resolve settings (fs st') =
  (Throw (LineNotValid (List.length (noteArray o) + 1)), fs st').
Proof.
  intros Hc Habs [Hk Hkl] Hv Hvl st'.
  apply includes_false_count in Hk, Hkl, Hvl.
  rewrite includes_count in Hv. apply Nat.ltb_lt in Hv.
  destruct (constructor_returns resolve _ _ _ _ Hc) as (Hp & Hext & _).
  destruct (lines_of_constructor _ _ _ _ Hc) as (Hlf & Hval & _).
  pose proof (find_absent _ _ Habs) as Hf. fold (found k o) in Hf.
  set (line := k +:+ "=" +:+ v).
  assert (Hst : st' = mkState (pushed o line)
            (write_disk resolve d1 (filePath o) (JS.join "
" (noteArray o ++ [line])))).
  { subst st'. rewrite set_eq. simpl. now rewrite Hf. }
  assert (Hsplit : JS.split JS.LF (JS.join "
" (noteArray o ++ [line])) = noteArray o ++ [line]).
  { apply split_join; [now destruct (noteArray o)|].
    apply Forall_app. split; [exact Hlf|]. constructor; [|constructor].
    subst line. rewrite new_line_count_lf. lia. }
  assert (Hidx : JS.findIndex invalid_line (noteArray o ++ [line]) =
                 Some (List.length (noteArray o))).
  { apply findIndex_some. exists (noteArray o), line, [].
    repeat split; try assumption.
    apply line_with_two_eq_invalid. subst line.
    rewrite new_line_count_eq. lia. }
  rewrite Hst. simpl fs.
  rewrite (constructor_on_text settings _ (JS.join "
" (noteArray o ++ [line]))); [|rewrite <- Hp; apply read_write_disk | now rewrite <- Hp].
  now rewrite Hsplit, Hidx.
Qed.

(** X11: [remove] is seen after a reload.  After construction and any
    calls, a [remove(k)] that does not throw writes a file on which a new
    instance can be constructed, and on that instance [has(k)] returns
    [false]; every line of the new instance is a line of the first one at
    its construction, or the one empty line of an empty file. *)
Theorem remove_then_reload (settings : Settings.settings)
  (d d1 : gmap string string) (o : Noteable) (calls : list call) (k : string) :
  constructor resolve settings d = (Return o, d1) ->
  let st := steps resolve auto_parse calls (mkState o d1) in
  negb (JS.truthy (found k (this st))) && throwError (this st) = false ->
  let st' := snd (remove resolve k st) in
  exists o' d',
    constructor resolve settings (fs st') = (Return o', d')
    /\ has k (mkState o' d') = (Return false, mkState o' d')
    /\ Forall (fun line => In line (noteArray o) \/ line = "") (noteArray o').
Proof.
  intros Hc st Hr st'.
  destruct (constructor_returns resolve _ _ _ _ Hc) as (Hp & Hext & Ha & _).
  destruct (lines_of_constructor _ _ _ _ Hc) as (Hlf & Hval & _).
  pose proof (steps_grows resolve auto_parse calls (mkState o d1)) as Hg.
  fold st in Hg. simpl in Hg. destruct Hg as (Hfp & Hn & _).
  remember (List.filter (fun note => negb (key_is k note)) (noteArray o))
    as data eqn:Hd.
  assert (Hst : fs st' = write_disk resolve (fs st) (filePath o) (JS.join "
" data)).
  { subst st'. rewrite remove_eq, Hr. simpl. rewrite Hd.
    now rewrite Hfp, Hn, Ha. }
  assert (Hsub : forall x, In x data -> In x (noteArray o)).
  { intros x Hx. rewrite Hd in Hx. apply filter_In in Hx. tauto. }
  rewrite Hst.
  rewrite (constructor_on_text settings _ (JS.join "
" data)); [|rewrite <- Hp; apply read_write_disk | now rewrite <- Hp].
  destruct data as [|x data'].
  - simpl. eexists _, _. split; [reflexivity|]. split.
    + rewrite has_eq. unfold found, JS.find. simpl.
      destruct (key_is k ""); reflexivity.
    + simpl. constructor; [now right | constructor].
  - assert (Hsplit : JS.split JS.LF (JS.join "
" (x :: data')) = x :: data').
    { apply split_join; [discriminate|].
      apply List.Forall_forall. intros y Hy.
      rewrite List.Forall_forall in Hlf. apply Hlf. now apply Hsub. }
    assert (Hidx : JS.findIndex invalid_line (x :: data') = None).
    { apply findIndex_none. apply List.Forall_forall. intros y Hy.
      rewrite List.Forall_forall in Hval. apply Hval. now apply Hsub. }
    rewrite Hsplit, Hidx. eexists _, _. split; [reflexivity|]. split.
    + rewrite has_eq. unfold found. simpl noteArray. rewrite Hd.
      now rewrite find_filter_none.
    + simpl. apply List.Forall_forall. intros y Hy. left. now apply Hsub.
Qed.

(** X12: [change] is seen after a reload.  After construction, a
    [change(k, v)] of a key that [keyCheck] finds, with no [=] or newline in
    the value, writes a file on which a new instance has as many lines as
    the first, finds [k=v] for the key, and, unless the key parses as an
    integer above 1, returns [v] from [get(k)]. *)
Theorem change_then_reload (settings : Settings.settings)
  (d d1 : gmap string string) (o : Noteable) (k v : string) :
  constructor resolve settings d = (Return o, d1) ->
  JS.truthy (found k o) = true -> valid_text v ->
  let st' := snd (change resolve k v (mkState o d1)) in
  exists o' d',
    constructor resolve settings (fs st') = (Return o', d')
    /\ List.length (noteArray o') = List.length (noteArray o)
    /\ found k o' = Some (k +:+ "=" +:+ v)
    /\ (JS.gt_one (JS.parseInt k) = false ->
        get auto_parse k (mkState o' d') =
        (Return (read_value auto_parse (autoParse o) (Some v)), mkState o' d')).
Proof.
  intros Hc Hfound [Hv Hvl] st'.
  apply includes_false_count in Hv, Hvl.
  destruct (constructor_returns resolve _ _ _ _ Hc) as (Hp & Hext & _).
  destruct (constructor_fields _ _ _ _ Hc) as (Hap & _).
  destruct (lines_of_constructor _ _ _ _ Hc) as (Hlf & Hval & Hne).
  set (line := k +:+ "=" +:+ v).
  set (f := fun note => if key_is k note then line else note).
  destruct (found k o) as [line0|] eqn:Hf0; [|discriminate].
  assert (Hin0 : In line0 (noteArray o) /\ key_is k line0 = true).
  { unfold found, JS.find in Hf0. now apply find_some in Hf0. }
  destruct Hin0 as (Hin0 & Hk0).
  assert (Hk : count_char JS.EQ k = 0).
  { apply key_is_true in Hk0. rewrite <- Hk0. apply before_has_no_sep. }
  assert (Hkl : count_char JS.LF k = 0).
  { apply key_is_true in Hk0. rewrite <- Hk0.
    pose proof (before_count_other JS.LF JS.EQ line0) as Hle.
    rewrite List.Forall_forall in Hlf. rewrite (Hlf _ Hin0) in Hle. lia. }
  assert (Hst : st' = mkState o
            (write_disk resolve d1 (filePath o) (JS.join "
" (List.map f (noteArray o))))).
  { subst st'. rewrite change_eq. simpl. now rewrite Hf0, Hfound. }
  assert (Hkey : forall note, key_is k (f note) = key_is k note).
  { intros note. unfold f. destruct (key_is k note) eqn:E; [|exact E].
    subst line. now apply key_is_new_line. }
  assert (Hsplit : JS.split JS.LF (JS.join "
" (List.map f (noteArray o))) = List.map f (noteArray o)).
  { apply split_join; [now destruct (noteArray o)|].
    apply List.Forall_forall. intros y Hy. apply in_map_iff in Hy.
    destruct Hy as (x & <- & Hx). unfold f. destruct (key_is k x).
    - subst line. rewrite new_line_count_lf. lia.
    - rewrite List.Forall_forall in Hlf. now apply Hlf. }
  assert (Hidx : JS.findIndex invalid_line (List.map f (noteArray o)) = None).
  { apply findIndex_none. apply List.Forall_forall. intros y Hy.
    apply in_map_iff in Hy. destruct Hy as (x & <- & Hx). unfold f.
    destruct (key_is k x).
    - apply line_with_one_eq_valid. subst line. rewrite new_line_count_eq. lia.
    - rewrite List.Forall_forall in Hval. now apply Hval. }
  rewrite Hst. simpl fs.
  rewrite (constructor_on_text settings _ (JS.join "
" (List.map f (noteArray o)))); [|rewrite <- Hp; apply read_write_disk | now rewrite <- Hp].
  rewrite Hsplit, Hidx. eexists _, _. split; [reflexivity|].
  assert (Hnew : JS.find (key_is k) (List.map f (noteArray o)) = Some line).
  { rewrite (find_map_same _ f _ Hkey). unfold found in Hf0. rewrite Hf0.
    simpl. unfold f. now rewrite Hk0. }
  split; [simpl; apply length_map|]. split; [exact Hnew|].
  intros Hg. rewrite get_eq. unfold found. simpl this. simpl noteArray.
  rewrite Hnew. subst line.
  rewrite (truthy_some _ (new_line_not_empty k v)).
  rewrite parseInt_of_line, Hg.
  rewrite (second_new_line _ _ Hk Hv). simpl. now rewrite Hap.
Qed.

(** X13: constructing twice is constructing once.  After a successful
    construction, a second construction on the disk it left succeeds and
    leaves that disk as it is; the second instance holds the non-blank
    lines of the first, in order, or the one empty line when there is
    none. *)
Theorem constructor_twice (settings : Settings.settings)
  (d d1 : gmap string string) (o : Noteable) :
  constructor resolve settings d = (Return o, d1) ->
  exists o',
    constructor resolve settings d1 = (Return o', d1)
    /\ noteArray o' =
       match compacted (noteArray o) with
       | [] => [""]
       | data => data
       end.
Proof.
  intros Hc.
  destruct (constructor_returns resolve _ _ _ _ Hc) as (Hp & Hext & _ & _ & Hr).
  destruct (lines_of_constructor _ _ _ _ Hc) as (Hlf & Hval & _).
  fold (compacted (noteArray o)) in Hr.
  assert (Hsub : forall x, In x (compacted (noteArray o)) -> In x (noteArray o)).
  { intros x Hx. apply filter_In in Hx. tauto. }
  pose proof (compacted_twice (noteArray o)) as Htw.
  rewrite (constructor_on_text settings _ _ (eq_trans (f_equal _ (eq_sym Hp)) Hr))
    by now rewrite <- Hp.
  destruct (compacted (noteArray o)) as [|x data'] eqn:Ed.
  - simpl. rewrite write_same_disk by now rewrite <- Hp.
    eexists. split; reflexivity.
  - assert (Hsplit : JS.split JS.LF (JS.join "
" (x :: data')) = x :: data').
    { apply split_join; [discriminate|].
      apply List.Forall_forall. intros y Hy.
      rewrite List.Forall_forall in Hlf. apply Hlf. now apply Hsub. }
    assert (Hidx : JS.findIndex invalid_line (x :: data') = None).
    { apply findIndex_none. apply List.Forall_forall. intros y Hy.
      rewrite List.Forall_forall in Hval. apply Hval. now apply Hsub. }
    rewrite Hsplit, Hidx, Htw. rewrite write_same_disk by now rewrite <- Hp.
    eexists. split; reflexivity.
Qed.

(** X14: the default file.  When the settings give no path, the empty
    path, or [default] in any mix of upper and lower case, the instance
    uses [./note.noteable]: the constructor never throws the extension
    error, and when it is done there is a file at that path. *)
Theorem default_path_used (settings : Settings.settings)
  (d : gmap string string) :
  Settings.filePath settings = None
  \/ Settings.filePath settings = Some ""
  \/ (exists p, Settings.filePath settings = Some p
                /\ JS.toLowerCase p = "default") ->
  effective_path settings = "./note.noteable"
  /\ (forall q, fst (constructor resolve settings d) <> Throw (NotNoteableFile q))
  /\ read_disk resolve (snd (constructor resolve settings d)) "./note.noteable"
     <> None.
Proof.
  intros H.
  assert (Hp : effective_path settings = "./note.noteable").
  { unfold effective_path. destruct H as [-> | [-> | (p & -> & Hl)]];
      [reflexivity | reflexivity |].
    rewrite Hl. simpl. now rewrite orb_true_r. }
  split; [exact Hp|].
  rewrite (constructor_eq resolve resolve_idem). simpl. rewrite Hp.
  change (JS.endsWith ".noteable" "./note.noteable") with true. simpl.
  assert (Hcr : read_disk resolve (created resolve d "./note.noteable")
                  "./note.noteable" <> None).
  { unfold created.
    destruct (read_disk resolve d "./note.noteable") eqn:E;
      [now rewrite E | now rewrite read_write_disk]. }
  destruct (JS.findIndex invalid_line _); simpl.
  - split; [discriminate | exact Hcr].
  - split; [discriminate | now rewrite read_write_disk].
Qed.

(** X15: [getAll] on a new instance has one entry per line of the file as
    it was found, blank lines and comments included: one more entry than
    the file has newlines.  It does not change the instance or the disk. *)
Theorem getAll_one_entry_per_line (settings : Settings.settings)
  (d d' : gmap string string) (o : Noteable) :
  constructor resolve settings d = (Return o, d') ->
  exists entries,
    getAll auto_parse (mkState o d') = (Return entries, mkState o d')
    /\ List.length entries =
       S (count_char JS.LF (source resolve d (filePath o))).
Proof.
  intros Hc.
  destruct (constructor_returns resolve _ _ _ _ Hc) as (_ & _ & Ha & _).
  rewrite getAll_eq. eexists. split; [reflexivity|].
  rewrite length_map. simpl. rewrite Ha, split_length.
  now rewrite (constructor_notes _ _ _ _ Hc).
Qed.

End Reload.

(** ** [typeof] and [isEmpty] *)

Section Wrappers.

Variable resolve : string -> string.
Context {value : Type}.
Variable auto_parse : option string -> value.
Variable type_tag : value -> string.
Variable is_undefined : value -> bool.
Variable length_is_zero : value -> option bool.

Lemma get_not_found (key : string) (st : state) :
  JS.truthy (found key (this st)) = false ->
  get auto_parse key st =
  (if throwError (this st) then Throw (KeyDoesntExist key)
   else Return Undefined, st).
Proof.
  intros Hf. rewrite get_eq.
  destruct (found key (this st)) as [line|]; [|reflexivity].
  now rewrite Hf.
Qed.

(** X16: on a key that is not found, whatever [autoParse] is, [isEmpty]
    returns [true] and [typeof] returns the tag [undefined] when
    [throwError] is off; when it is set both throw the key-not-found
    error. *)
Theorem wrappers_on_missing_key (key : string) (st : state) :
  JS.truthy (found key (this st)) = false ->
  isEmpty auto_parse is_undefined length_is_zero key st =
  (if throwError (this st) then Raised (KeyDoesntExist key) else Done true, st)
  /\ typeof auto_parse type_tag key st =
     (if throwError (this st) then Throw (KeyDoesntExist key)
      else Return "undefined", st).
Proof.
  intros Hf. unfold isEmpty, typeof, bind, ret.
  rewrite (get_not_found _ _ Hf).
  destruct (throwError (this st)); split; reflexivity.
Qed.

(** X17: with [autoParse] off, after [set(k, v)] has added a key no line
    had (key and value without [=] or newline, the key not parsing as an
    integer above 1), [isEmpty(k)] is [true] exactly when [v] is the empty
    string, and [typeof(k)] is [string]. *)
Theorem wrappers_after_set_raw (k v : string) (st : state) :
  absent k (this st) -> valid_text k -> valid_text v ->
  JS.gt_one (JS.parseInt k) = false -> autoParse (this st) = false ->
  let st' := snd (set resolve k v st) in
  isEmpty auto_parse is_undefined length_is_zero k st' =
  (Done (JS.length v =? 0), st')
  /\ typeof auto_parse type_tag k st' = (Return "string", st').
Proof.
  intros Ha [Hk _] [Hv _] Hp Hraw st'.
  apply includes_false_count in Hk, Hv.
  pose proof (find_absent _ _ Ha) as Hf. fold (found k (this st)) in Hf.
  assert (Hg : get auto_parse k st' = (Return (Str v), st')).
  { subst st'. rewrite (get_after_set resolve auto_parse k v st Hf Hk Hv Hp).
    now rewrite Hraw. }
  unfold isEmpty, typeof, bind, ret. rewrite Hg. simpl. rewrite Hg.
  split; reflexivity.
Qed.

(** X18: with [autoParse] off the wrappers see strings only: [isEmpty]
    never ends in a [TypeError], and [typeof] returns no tag other than
    [string] and [undefined]. *)
Theorem wrappers_raw_mode (key : string) (st : state) :
  autoParse (this st) = false ->
  fst (isEmpty auto_parse is_undefined length_is_zero key st) <> TypeError
  /\ (forall tag, fst (typeof auto_parse type_tag key st) = Return tag ->
                  tag = "string" \/ tag = "undefined").
Proof.
  intros Hraw.
  assert (Hg : exists r, get auto_parse key st = (r, st)
                         /\ (forall x, r = Return x ->
                                       x = Undefined \/ exists s, x = Str s)).
  { rewrite get_eq, Hraw. eexists. split; [reflexivity|].
    intros x Hx.
    destruct (found key (this st)) as [line|].
    - destruct (JS.truthy (Some line)).
      + destruct (JS.gt_one _).
        * destruct (throwError (this st)); [discriminate|].
          injection Hx as <-. now left.
        * injection Hx as <-. simpl. destruct (second line); [right|left]; eauto.
      + destruct (throwError (this st)); [discriminate|].
        injection Hx as <-. now left.
    - destruct (throwError (this st)); [discriminate|].
      injection Hx as <-. now left. }
  destruct Hg as (r & Hg & Hr).
  unfold isEmpty, typeof, bind, ret. rewrite Hg.
  destruct r as [x|e]; simpl.
  - destruct (Hr x eq_refl) as [-> | (s & ->)]; simpl.
    + split; [discriminate|]. intros tag [= <-]. now right.
    + rewrite Hg. simpl. split; [discriminate|]. intros tag [= <-]. now left.
  - split; [discriminate|]. intros tag H. discriminate H.
Qed.

End Wrappers.

(** ** The further properties at concrete inputs *)

Lemma absent_in_empty_store (k : string) (parse : bool) :
  k <> "" -> absent k (store_of "" parse).
Proof. intros Hk. repeat constructor. simpl. congruence. Qed.

Lemma numeric_key_cannot_be_read_witness :
  (set resolved "2021" "x" ;; get sample_parse "2021")
    (mkState (store_of "" true) (disk_with "")) =
  (Return Undefined,
   snd (set resolved "2021" "x" (mkState (store_of "" true) (disk_with "")))).
Proof.
  exact (numeric_key_cannot_be_read resolved sample_parse "2021" "x"
           (mkState (store_of "" true) (disk_with ""))
           (absent_in_empty_store "2021" true ltac:(discriminate))
           eq_refl eq_refl).
Defined.

Lemma key_with_equals_never_found_witness :
  has "a=b" (snd (set resolved "a=b" "c"
                    (mkState (store_of "" true) (disk_with "")))) =
  (Return false,
   snd (set resolved "a=b" "c" (mkState (store_of "" true) (disk_with "")))).
Proof.
  exact (proj2 (proj2 (proj2
           (key_with_equals_never_found resolved sample_parse "a=b"
              (mkState (store_of "" true) (disk_with "")) eq_refl))) "c").
Defined.

Lemma set_twice_keeps_first_witness :
  (set resolved "years" "2021" ;; set resolved "years" "2022")
    (mkState (store_of "" true) (disk_with "")) =
  (Return tt,
   snd (set resolved "years" "2021" (mkState (store_of "" true) (disk_with "")))).
Proof.
  exact (set_twice_keeps_first resolved "years" "2021" "2022"
           (mkState (store_of "" true) (disk_with ""))
           (absent_in_empty_store "years" true ltac:(discriminate)) eq_refl).
Defined.

Lemma get_throws_only_when_asked_witness :
  fst (get sample_parse "zz" (mkState strict_store (disk_with "a=1"))) =
  Throw (KeyDoesntExist "zz")
  /\ throwError strict_store = true.
Proof.
  split; [reflexivity|].
  exact (proj1 (get_throws_only_when_asked sample_parse "zz"
                  (mkState strict_store (disk_with "a=1"))
                  (KeyDoesntExist "zz") eq_refl)).
Defined.

Lemma quiet_mode_never_throws_witness :
  fst (remove resolved "zz" (mkState (store_of "a=1" true) (disk_with "a=1"))) =
  Return tt.
Proof.
  exact (proj1 (proj2 (proj2
           (quiet_mode_never_throws resolved sample_parse "zz" "v"
              (mkState (store_of "a=1" true) (disk_with "a=1")) eq_refl)))).
Defined.

Lemma set_survives_reload_witness :
  exists o' d',
    constructor resolved n_settings
      (fs (snd (set resolved "b" "2"
                  (mkState (store_of "a=1" true) (disk_with "a=1"))))) =
    (Return o', d')
    /\ noteArray o' = ["a=1"; "b=2"].
Proof.
  destruct (set_survives_reload resolved sample_parse resolved_idem n_settings
              (disk_with "a=1") (disk_with "a=1") (store_of "a=1" true) "b" "2"
              eq_refl
              ltac:(repeat constructor; simpl; congruence)
              (conj eq_refl eq_refl) (conj eq_refl eq_refl))
    as (o' & d' & Hc & _ & Hn & _).
  exists o', d'. split; [exact Hc | exact Hn].
Defined.

Lemma set_value_with_eq_breaks_reload_witness :
  constructor resolved n_settings
    (fs (snd (set resolved "b" "1=2"
                (mkState (store_of "a=1" true) (disk_with "a=1"))))) =
  (Throw (LineNotValid 2),
   fs (snd (set resolved "b" "1=2"
              (mkState (store_of "a=1" true) (disk_with "a=1"))))).
Proof.
  exact (set_value_with_eq_breaks_reload resolved resolved_idem n_settings
           (disk_with "a=1") (disk_with "a=1") (store_of "a=1" true) "b" "1=2"
           eq_refl
           ltac:(repeat constructor; simpl; congruence)
           (conj eq_refl eq_refl) eq_refl eq_refl).
Defined.

Lemma remove_then_reload_witness :
  exists o' d',
    constructor resolved n_settings
      (fs (snd (remove resolved "a"
                  (mkState (store_of "a=1" true) (disk_with "a=1"))))) =
    (Return o', d')
    /\ has "a" (mkState o' d') = (Return false, mkState o' d').
Proof.
  destruct (remove_then_reload resolved sample_parse resolved_idem n_settings
              (disk_with "a=1") (disk_with "a=1") (store_of "a=1" true) [] "a"
              eq_refl eq_refl)
    as (o' & d' & Hc & Hh & _).
  exists o', d'. split; [exact Hc | exact Hh].
Defined.

Lemma change_then_reload_witness :
  exists o' d',
    constructor resolved n_settings
      (fs (snd (change resolved "years" "2022"
                  (mkState (store_of "years=2021" true)
                     (disk_with "years=2021"))))) =
    (Return o', d')
    /\ get sample_parse "years" (mkState o' d') =
       (Return (Parsed (Some "2022")), mkState o' d').
Proof.
  destruct (change_then_reload resolved sample_parse resolved_idem n_settings
              (disk_with "years=2021") (disk_with "years=2021")
              (store_of "years=2021" true) "years" "2022"
              eq_refl eq_refl (conj eq_refl eq_refl))
    as (o' & d' & Hc & _ & _ & Hg).
  exists o', d'. split; [exact Hc | exact (Hg eq_refl)].
Defined.

Lemma constructor_twice_witness :
  exists o',
    constructor resolved n_settings (disk_with "a=1
b=2") = (Return o', disk_with "a=1
b=2")
    /\ noteArray o' = ["a=1"; "b=2"].
Proof.
  exact (constructor_twice resolved resolved_idem n_settings
           (disk_with "a=1

b=2") (disk_with "a=1
b=2") (store_of "a=1

b=2" true) eq_refl).
Defined.

Lemma default_path_used_witness :
  effective_path default_settings = "./note.noteable"
  /\ read_disk resolved (snd (constructor resolved default_settings ∅))
       "./note.noteable" <> None.
Proof.
  destruct (default_path_used resolved resolved_idem default_settings ∅
              (or_intror (or_intror
                 (ex_intro _ "DEFAULT" (conj eq_refl eq_refl)))))
    as (Hp & _ & Hr).
  split; [exact Hp | exact Hr].
Defined.

Lemma getAll_one_entry_per_line_witness :
  exists entries,
    getAll sample_parse (mkState (store_of "a=1

b=2" true) (disk_with "a=1
b=2")) =
    (Return entries, mkState (store_of "a=1

b=2" true) (disk_with "a=1
b=2"))
    /\ List.length entries = 3.
Proof.
  exact (getAll_one_entry_per_line resolved sample_parse resolved_idem n_settings
           (disk_with "a=1

b=2") (disk_with "a=1
b=2") (store_of "a=1

b=2" true) eq_refl).
Defined.

Lemma wrappers_on_missing_key_witness :
  isEmpty sample_parse sample_undefined sample_length_zero "zz"
    (mkState (store_of "a=1" true) (disk_with "a=1")) =
  (Done true, mkState (store_of "a=1" true) (disk_with "a=1"))
  /\ typeof sample_parse sample_tag "zz"
       (mkState strict_store (disk_with "a=1")) =
     (Throw (KeyDoesntExist "zz"), mkState strict_store (disk_with "a=1")).
Proof.
  split.
  - exact (proj1 (wrappers_on_missing_key sample_parse sample_tag
                    sample_undefined sample_length_zero "zz"
                    (mkState (store_of "a=1" true) (disk_with "a=1")) eq_refl)).
  - exact (proj2 (wrappers_on_missing_key sample_parse sample_tag
                    sample_undefined sample_length_zero "zz"
                    (mkState strict_store (disk_with "a=1")) eq_refl)).
Defined.

Lemma wrappers_after_set_raw_witness :
  isEmpty sample_parse sample_undefined sample_length_zero "k"
    (snd (set resolved "k" "" (mkState (store_of "" false) (disk_with "")))) =
  (Done true,
   snd (set resolved "k" "" (mkState (store_of "" false) (disk_with "")))).
Proof.
  exact (proj1 (wrappers_after_set_raw resolved sample_parse sample_tag
                  sample_undefined sample_length_zero "k" ""
                  (mkState (store_of "" false) (disk_with ""))
                  (absent_in_empty_store "k" false ltac:(discriminate))
                  (conj eq_refl eq_refl) (conj eq_refl eq_refl)
                  eq_refl eq_refl)).
Defined.

Lemma wrappers_raw_mode_witness :
  fst (isEmpty sample_parse sample_undefined sample_length_zero "a"
         (mkState (store_of "a=1" false) (disk_with "a=1"))) <> TypeError.
Proof.
  exact (proj1 (wrappers_raw_mode sample_parse sample_tag sample_undefined
                  sample_length_zero "a"
                  (mkState (store_of "a=1" false) (disk_with "a=1")) eq_refl)).
Defined.

(** ** The environment: where a write can fail, and where it cannot *)

Section Environment.

Variable resolve : string -> string.
Context {value : Type}.
Variable auto_parse : option string -> value.
Variable dir_exists : string -> bool.

Lemma fs_write_existing (d : gmap string string) (p data : string) :
  existsSync resolve d p = true ->
  fs_write resolve dir_exists d p data = Some (write_disk resolve d p data).
Proof. intros H. unfold fs_write. now rewrite H, orb_true_r. Qed.

Lemma fs_write_missing (d : gmap string string) (p data : string) :
  existsSync resolve d p = false -> dir_exists (resolve p) = false ->
  fs_write resolve dir_exists d p data = None.
Proof. intros H H'. unfold fs_write. now rewrite H, H'. Qed.

Lemma writeFileSync_existing (p data : string) (st : state) :
  existsSync resolve (fs st) p = true ->
  writeFileSync resolve dir_exists p data st =
  writeFileSync resolve every_directory p data st.
Proof.
  intros H. unfold writeFileSync.
  now rewrite (fs_write_existing _ _ _ H).
Qed.

(** On a state whose file is on the disk the writing methods do the same in
    every environment. *)
Lemma methods_agree_on_disk (k v : string) (st : state) :
  existsSync resolve (fs st) (filePath (this st)) = true ->
  set_in resolve dir_exists k v st = set resolve k v st
  /\ remove_in resolve dir_exists k st = remove resolve k st
  /\ change_in resolve dir_exists k v st = change resolve k v st
  /\ removeAll_in resolve dir_exists st = removeAll resolve st.
Proof.
  intros H. split; [|split; [|split]].
  - unfold set, set_in, bind. rewrite has_eq.
    unfold get_this, ret, throw, push.
    destruct (JS.truthy _); [reflexivity|]. simpl.
    now apply writeFileSync_existing.
  - unfold remove, remove_in, bind. rewrite keyCheck_eq. unfold get_this.
    destruct (negb _ && _); [reflexivity|]. simpl.
    now apply writeFileSync_existing.
  - unfold change, change_in, bind. rewrite keyCheck_eq. unfold get_this.
    destruct (negb _ && _); [reflexivity|]. simpl.
    now apply writeFileSync_existing.
  - unfold removeAll, removeAll_in, bind, get_this. simpl.
    now apply writeFileSync_existing.
Qed.

(** A call leaves the file of the instance on the disk. *)
Lemma step_keeps_file (c : call) (st : state) :
  existsSync resolve (fs st) (filePath (this st)) = true ->
  existsSync resolve (fs (step resolve auto_parse c st))
    (filePath (this (step resolve auto_parse c st))) = true.
Proof.
  intros H.
  assert (Hw : forall data,
            existsSync resolve
              (write_disk resolve (fs st) (filePath (this st)) data)
              (filePath (this st)) = true).
  { intros data. unfold existsSync, write_disk. now rewrite lookup_insert_eq. }
  destruct c; unfold step.
  - now rewrite get_eq.
  - rewrite set_eq. destruct (JS.truthy _).
    + now destruct (throwError (this st)).
    + simpl. apply Hw.
  - rewrite remove_eq. destruct (negb _ && _); [exact H | apply Hw].
  - rewrite change_eq. destruct (negb _ && _); [exact H | apply Hw].
  - now rewrite has_eq.
  - exact H.
  - apply Hw.
Qed.

Hypothesis resolve_idem : forall p, resolve (resolve p) = resolve p.

(** When the file is on the disk, or its directory exists, the constructor
    does in the environment what it does where no directory is missing; and
    when it returns, the file of the instance is on the disk. *)
Lemma constructor_agrees (settings : Settings.settings) (d : gmap string string) :
  existsSync resolve d (effective_path settings) = true
  \/ dir_exists (resolve (effective_path settings)) = true ->
  constructor_in resolve dir_exists settings d = constructor resolve settings d.
Proof.
  intros H. unfold constructor, constructor_in.
  set (p := effective_path settings) in *.
  assert (He : existsSync resolve d (resolve p) = existsSync resolve d p).
  { unfold existsSync. now rewrite resolve_idem. }
  assert (Hw : fs_write resolve dir_exists d (resolve p) "" =
               fs_write resolve every_directory d (resolve p) ""
               \/ existsSync resolve d p = true).
  { destruct H as [H|H]; [now right|]. left. unfold fs_write.
    now rewrite resolve_idem, H. }
  rewrite He.
  destruct (existsSync resolve d p) eqn:Ex; simpl.
  - destruct (negb (JS.endsWith ".noteable" p)); [reflexivity|].
    unfold read_disk. unfold existsSync in Ex.
    destruct (d !! resolve p) as [text|] eqn:Er; [|discriminate].
    unfold check, bind, get_this. simpl.
    destruct (JS.findIndex invalid_line (JS.split JS.LF text)); [reflexivity|].
    rewrite writeFileSync_existing; [reflexivity|].
    simpl. unfold existsSync. now rewrite Er.
  - destruct Hw as [Hw|Hw]; [|discriminate]. rewrite Hw.
    unfold fs_write, every_directory. simpl.
    destruct (negb (JS.endsWith ".noteable" p)); [reflexivity|].
    unfold read_disk, write_disk. rewrite resolve_idem, lookup_insert_eq.
    unfold check, bind, get_this. simpl.
    rewrite writeFileSync_existing; [reflexivity|].
    simpl. unfold existsSync. now rewrite lookup_insert_eq.
Qed.

Lemma constructor_leaves_file (settings : Settings.settings)
  (d d' : gmap string string) (o : Noteable) :
  constructor resolve settings d = (Return o, d') ->
  existsSync resolve d' (filePath o) = true.
Proof.
  intros Hc.
  destruct (constructor_returns resolve _ _ _ _ Hc) as (_ & _ & _ & _ & Hr).
  unfold read_disk in Hr. unfold existsSync. now rewrite Hr.
Qed.

End Environment.
